(** * pytest-ansible-units: the collection path resolver

    A shallow embedding of [src/pytest_ansible_units/__init__.py].

    The plugin is glue code around three pieces of process-global state:
    the filesystem, [sys.path] and [os.environ].  Every function of the
    module is embedded as a computation in a state-and-exception monad
    over a [World] record holding that state; Python exceptions are the
    constructors of [exn], and an exception leaves the mutations made
    before it in place, as in Python. *)

From stdpp Require Import gmap strings list fin_maps.
From Stdlib Require Import ZArith Ascii.

Local Open Scope string_scope.
Local Open Scope list_scope.

Set Warnings "-register-all".

(** ** Python values

    The values [yaml.safe_load] can produce.  Dates and floats carry their
    textual form only; nothing in the module looks inside them.  A [str] is
    held as the bytes of its UTF-8 encoding, which is what the filesystem
    gets of it as a name. *)

Inductive PyVal : Type :=
| VNone
| VBool (b : bool)
| VInt (z : Z)
| VFloat (repr : string)
| VStr (s : string)
| VBytes (s : string)
| VDate (iso : string)
| VList (items : list PyVal)
| VSet (items : list PyVal)
| VDict (items : list (PyVal * PyVal)).

(** [s == v] for a [str] on the left: only a [str] with the same text is
    equal to it. *)
Definition str_eq (s : string) (v : PyVal) : bool :=
  match v with
  | VStr t => String.eqb s t
  | _ => false
  end.

Definition is_none (v : PyVal) : bool :=
  match v with
  | VNone => true
  | _ => false
  end.

(** ** Exceptions and results *)

(** The error numbers of an [OSError] that has no class of its own. *)
Inductive errno : Type :=
| ENAMETOOLONG
| EROFS
| ENOSPC
| EDQUOT
| EMLINK
| EIO.

#[global] Instance errno_eq_dec : EqDecision errno.
Proof. solve_decision. Defined.

Inductive exn : Type :=
| NameError (name : string)
| AttributeError
| TypeError
| KeyError
| IndexError
| ValueError
| FileNotFoundError
| FileExistsError
| NotADirectoryError
| IsADirectoryError
| PermissionError       (* OSError, errno EACCES or EPERM *)
| TooManyLinks          (* OSError, errno ELOOP *)
| OSError (code : errno)
| YAMLError.

#[global] Instance exn_eq_dec : EqDecision exn.
Proof. solve_decision. Defined.

Inductive result (A : Type) : Type :=
| Ok (a : A)
| Raise (e : exn).

Arguments Ok {A} a.
Arguments Raise {A} e.

Definition is_ok {A} (r : result A) : bool :=
  match r with
  | Ok _ => true
  | Raise _ => false
  end.

(** [d[key]] on a [dict], for a [str] key: the first entry whose key equals
    it, [KeyError] when there is none. *)
Fixpoint dict_get (key : string) (items : list (PyVal * PyVal)) : result PyVal :=
  match items with
  | [] => Raise KeyError
  | (k, v) :: rest => if str_eq key k then Ok v else dict_get key rest
  end.

(** [v[key]] for a [str] key.  Of the values above only a [dict] accepts it:
    [None], numbers, dates and sets are not subscriptable, and [str],
    [bytes] and [list] indices must be integers; all of these raise
    [TypeError]. *)
Definition subscript (v : PyVal) (key : string) : result PyVal :=
  match v with
  | VDict items => dict_get key items
  | _ => Raise TypeError
  end.

(** ** Paths

    [start_path] is the directory pytest was invoked from, an absolute
    path.  A [Path] is the list of its names below the root, so
    [parts] is the root followed by the names. *)

Abbreviation Path := (list string).

Definition parts (p : Path) : list string := "/" :: p.

(** [p.name] *)
Definition path_name (p : Path) : string := List.last p "".

(** [str(p)] *)
Definition path_str (p : Path) : string := "/" +:+ String.concat "/" p.

(** [l[-n:]] *)
Definition last_n {A} (n : nat) (l : list A) : list A :=
  drop (length l - n) l.

(** [p.parents[i]]: the ancestor [i + 1] levels up, [IndexError] beyond the
    root. *)
Definition path_parents (p : Path) (i : nat) : result Path :=
  if decide (i < length p) then Ok (take (length p - S i) p)
  else Raise IndexError.

(** [s.split(sep)] for a one-character separator. *)
Fixpoint split_on (sep : ascii) (s : string) : list string :=
  match s with
  | EmptyString => [""]
  | String c rest =>
      if Ascii.eqb c sep then "" :: split_on sep rest
      else match split_on sep rest with
           | [] => [String c ""]
           | hd :: tl => String c hd :: tl
           end
  end.

(** The names a string contributes to a path: its pieces between slashes,
    without the empty ones and the [.] ones ([..] is kept). *)
Definition segments (s : string) : list string :=
  filter (fun x => x ≠ "" ∧ x ≠ ".") (split_on "/" s).

Definition is_absolute (s : string) : bool :=
  match s with
  | String c _ => Ascii.eqb c "/"
  | EmptyString => false
  end.

(** [p / v]: a [str] operand is appended, or replaces [p] when it is
    absolute; any operand that is not a string or a path raises
    [TypeError]. *)
Definition truediv (p : Path) (v : PyVal) : result Path :=
  match v with
  | VStr s => Ok (if is_absolute s then segments s else p ++ segments s)
  | _ => Raise TypeError
  end.

(** ** The filesystem

    A finite map from canonical absolute paths to nodes.  The root is a
    directory and is not stored. *)

Inductive node : Type :=
| File (content : string)
| Dir
| Link (target : Path).

Definition node_at (fs : gmap Path node) (p : Path) : option node :=
  match p with
  | [] => Some Dir
  | _ => fs !! p
  end.

(** The number of symbolic links one lookup may traverse. *)
Definition MAXSYMLINKS : nat := 40.

(** The longest name, in bytes, a directory takes. *)
Definition NAME_MAX : nat := 255.

Definition name_too_long (c : string) : bool :=
  Nat.ltb NAME_MAX (String.length c).

Arguments name_too_long : simpl never.

(** The string holds a NUL, which Python refuses in any path before it
    asks the operating system ([ValueError]). *)
Fixpoint has_nul (s : string) : bool :=
  match s with
  | EmptyString => false
  | String c rest => Ascii.eqb c Ascii.zero || has_nul rest
  end.

(** Path resolution.  [cur] is the canonical directory reached so far and
    [rest] the names still to walk.  The result is the canonical location
    of the last name: its parent is an existing directory, the location
    itself may be absent.  A final symbolic link is followed when [follow]
    is set.  A name longer than [NAME_MAX] is refused where the walk
    reaches it ([ENAMETOOLONG]). *)
Fixpoint resolve_from (links : nat) (fs : gmap Path node) (follow : bool)
    (cur : Path) (rest : list string) {struct links} : result Path :=
  let fix walk (cur : Path) (rest : list string) {struct rest} : result Path :=
    match rest with
    | [] => Ok cur
    | c :: rest' =>
        if String.eqb c ".." then walk (removelast cur) rest'
        else if name_too_long c then Raise (OSError ENAMETOOLONG)
        else
          let q := cur ++ [c] in
          match fs !! q with
          | None =>
              match rest' with
              | [] => Ok q
              | _ => Raise FileNotFoundError
              end
          | Some Dir => walk q rest'
          | Some (File _) =>
              match rest' with
              | [] => Ok q
              | _ => Raise NotADirectoryError
              end
          | Some (Link t) =>
              if match rest' with [] => negb follow | _ => false end then Ok q
              else
                match links with
                | O => Raise TooManyLinks
                | S links' => resolve_from links' fs follow [] (t ++ rest')
                end
          end
    end
  in walk cur rest.

Definition resolve (fs : gmap Path node) (follow : bool) (p : Path) : result Path :=
  if existsb has_nul p then Raise ValueError
  else resolve_from MAXSYMLINKS fs follow [] p.

(** [os.stat]: the node a path leads to, following links. *)
Definition stat (fs : gmap Path node) (p : Path) : result (Path * node) :=
  match resolve fs true p with
  | Ok q =>
      match node_at fs q with
      | Some n => Ok (q, n)
      | None => Raise FileNotFoundError
      end
  | Raise e => Raise e
  end.

(** [os.path.exists] *)
Definition fs_exists (fs : gmap Path node) (p : Path) : bool :=
  is_ok (stat fs p).

(** [os.path.isdir], and [Path.is_dir] as [inject] uses it: false on any
    lookup error.  Where an older [Path.is_dir] lets [ENAMETOOLONG] through,
    the [os.makedirs] that follows it in [inject] raises the same error
    from the same state. *)
Definition fs_is_dir (fs : gmap Path node) (p : Path) : bool :=
  match stat fs p with
  | Ok (_, Dir) => true
  | _ => false
  end.

(** [open(p).read()] *)
Definition fs_read (fs : gmap Path node) (p : Path) : result string :=
  match stat fs p with
  | Ok (_, File content) => Ok content
  | Ok (_, Dir) => Raise IsADirectoryError
  | Ok (_, Link _) => Raise TooManyLinks
  | Raise e => Raise e
  end.

(** What the module asks of the operating system beyond looking a path up:
    to create an entry, or to list a directory. *)
Inductive access : Type :=
| Creating
| Listing.

(** What the operating system may answer, for reasons the map of nodes does
    not show: no permission on a directory of the path ([EACCES]), a
    read-only filesystem ([EROFS]), no space or quota left, a path longer
    than [PATH_MAX]. *)
Inductive refusal : Type :=
| Denied
| Refused (code : errno).

Definition refusal_error (r : refusal) : exn :=
  match r with
  | Denied => PermissionError
  | Refused code => OSError code
  end.

(** What an operation works on: the nodes, and for each access and
    canonical path whether the operating system refuses it there. *)
Record Disk : Type := mkDisk {
  nodes : gmap Path node;
  refuses : access -> Path -> option refusal
}.

(** A creating operation gives its outcome and the nodes it leaves; a single
    system call that fails leaves them as they were. *)
Definition create (d : Disk) (q : Path) (n : node)
    : result unit * gmap Path node :=
  match node_at (nodes d) q with
  | Some _ => (Raise FileExistsError, nodes d)
  | None =>
      match refuses d Creating q with
      | Some r => (Raise (refusal_error r), nodes d)
      | None => (Ok tt, <[q := n]> (nodes d))
      end
  end.

(** [os.mkdir] *)
Definition fs_mkdir (d : Disk) (p : Path) : result unit * gmap Path node :=
  match resolve (nodes d) false p with
  | Ok q => create d q Dir
  | Raise e => (Raise e, nodes d)
  end.

(** [os.symlink(src, dst)] *)
Definition fs_symlink (d : Disk) (src dst : Path) : result unit * gmap Path node :=
  if existsb has_nul src then (Raise ValueError, nodes d)
  else
    match resolve (nodes d) false dst with
    | Ok q => create d q (Link src)
    | Raise e => (Raise e, nodes d)
    end.

(** The names of the entries directly inside the directory at canonical
    path [d]. *)
Definition child_name (d : Path) (k : Path) : option string :=
  match drop (length d) k with
  | [n] => if decide (take (length d) k = d) then Some n else None
  | _ => None
  end.

Definition children (fs : gmap Path node) (d : Path) : list string :=
  omap (child_name d) (map_to_list fs).*1.

(** [os.listdir] *)
Definition fs_listdir (d : Disk) (p : Path) : result (list string) :=
  match stat (nodes d) p with
  | Ok (q, Dir) =>
      match refuses d Listing q with
      | Some r => Raise (refusal_error r)
      | None => Ok (children (nodes d) q)
      end
  | Ok (_, _) => Raise NotADirectoryError
  | Raise e => Raise e
  end.

(** [os.makedirs(name, exist_ok=True)], which recurses on the head of
    [name] while it does not exist; [rname] is [name] reversed.  A
    [FileExistsError] of the recursive call is swallowed, an error of the
    final [mkdir] only when [name] is a directory by then.  The directories
    made before a failure stay.  A path has no [.] name, so the original's
    test for a [.] tail never fires. *)
Fixpoint makedirs_rev (refuses : access -> Path -> option refusal)
    (fs : gmap Path node)
    (rname : list string) : result unit * gmap Path node :=
  match rname with
  | [] => (Ok tt, fs)
  | tail :: rhead =>
      let name := rev rname in
      let made :=
        if fs_exists fs (rev rhead) then (Ok tt, fs)
        else match makedirs_rev refuses fs rhead with
             | (Raise FileExistsError, fs') => (Ok tt, fs')
             | outcome => outcome
             end in
      match made with
      | (Ok _, fs1) =>
          match fs_mkdir (mkDisk fs1 refuses) name with
          | (Ok _, fs2) => (Ok tt, fs2)
          | (Raise e, _) =>
              if fs_is_dir fs1 name then (Ok tt, fs1) else (Raise e, fs1)
          end
      | (Raise e, fs1) => (Raise e, fs1)
      end
  end.

Definition fs_makedirs (d : Disk) (name : Path) : result unit * gmap Path node :=
  makedirs_rev (refuses d) (nodes d) (rev name).

(** ** The process state *)

(** The severities of [logging]. *)
Definition logging_CRITICAL : Z := 50.
Definition logging_ERROR : Z := 40.
Definition logging_WARNING : Z := 30.
Definition logging_INFO : Z := 20.
Definition logging_DEBUG : Z := 10.

Record World : Type := mkWorld {
  fs : gmap Path node;
  sys_path : list string;
  environ : gmap string string;
  (* the [paths] argument of each collection finder installed, latest first *)
  finders : list PyVal;
  (* the [level] argument of each [logging.basicConfig] call, latest first *)
  basic_config : list (option Z);
  (* the records handed to [logger], latest first *)
  log : list (Z * string);
  (* what the operating system refuses *)
  os_refuses : access -> Path -> option refusal
}.

Definition set_fs (f : gmap Path node) (w : World) : World :=
  mkWorld f (sys_path w) (environ w) (finders w) (basic_config w) (log w)
    (os_refuses w).
Definition set_sys_path (l : list string) (w : World) : World :=
  mkWorld (fs w) l (environ w) (finders w) (basic_config w) (log w)
    (os_refuses w).
Definition set_environ (e : gmap string string) (w : World) : World :=
  mkWorld (fs w) (sys_path w) e (finders w) (basic_config w) (log w)
    (os_refuses w).
Definition set_finders (l : list PyVal) (w : World) : World :=
  mkWorld (fs w) (sys_path w) (environ w) l (basic_config w) (log w)
    (os_refuses w).
Definition set_basic_config (l : list (option Z)) (w : World) : World :=
  mkWorld (fs w) (sys_path w) (environ w) (finders w) l (log w)
    (os_refuses w).
Definition set_log (l : list (Z * string)) (w : World) : World :=
  mkWorld (fs w) (sys_path w) (environ w) (finders w) (basic_config w) l
    (os_refuses w).

(** ** The monad *)

Definition M (A : Type) : Type := World -> result A * World.

Definition ret {A} (a : A) : M A := fun w => (Ok a, w).

Definition raise {A} (e : exn) : M A := fun w => (Raise e, w).

Definition bind {A B} (m : M A) (k : A -> M B) : M B :=
  fun w =>
    match m w with
    | (Ok a, w') => k a w'
    | (Raise e, w') => (Raise e, w')
    end.

Notation "x <- m ;; k" := (bind m (fun x => k))
  (at level 20, m at level 99, k at level 200).
Notation "m ;; k" := (bind m (fun _ => k))
  (at level 100, k at level 200, right associativity).

(** [try: m except e: h] *)
Definition try_except {A} (m : M A) (e : exn) (h : M A) : M A :=
  fun w =>
    match m w with
    | (Raise e', w') => if decide (e' = e) then h w' else (Raise e', w')
    | r => r
    end.

Definition lift {A} (r : result A) : M A := fun w => (r, w).

(** A filesystem operation that reads. *)
Definition fs_query {A} (f : gmap Path node -> result A) : M A :=
  fun w => (f (fs w), w).

(** The filesystem as the operations see it. *)
Definition disk (w : World) : Disk := mkDisk (fs w) (os_refuses w).

(** A filesystem operation that the operating system may refuse. *)
Definition fs_ask {A} (f : Disk -> result A) : M A :=
  fun w => (f (disk w), w).

(** A filesystem operation that writes; whatever it made before an error
    stays made. *)
Definition fs_update (f : Disk -> result unit * gmap Path node) : M unit :=
  fun w =>
    let '(outcome, fs') := f (disk w) in
    (outcome, set_fs fs' w).

(** [for x in xs: body(x)] *)
Fixpoint for_each {A} (xs : list A) (body : A -> M unit) : M unit :=
  match xs with
  | [] => ret tt
  | x :: rest => body x ;; for_each rest body
  end.

(** ** The logger *)

Definition logger_log (level : Z) (msg : string) : M unit :=
  fun w => (Ok tt, set_log ((level, msg) :: log w) w).

Definition logger_debug := logger_log logging_DEBUG.
Definition logger_info := logger_log logging_INFO.
Definition logger_error := logger_log logging_ERROR.

(** [logging.basicConfig(level=level)] *)
Definition logging_basicConfig (level : option Z) : M unit :=
  fun w => (Ok tt, set_basic_config (level :: basic_config w) w).

(** ** The host

    What the module finds around it when it is imported: which of its
    optional imports succeed, the platform's [os.pathsep], and the YAML
    loader. *)

Record Host : Type := mkHost {
  yaml_installed : bool;
  ansible_installed : bool;
  collection_finder_importable : bool;
  os_pathsep : ascii;
  yaml_safe_load : string -> result PyVal
}.

(** What a name of the module can be bound to. *)
Inductive binding : Type :=
| BBool (b : bool)
| BObject (what : string)
| BSession (getoption : string -> bool).   (* a pytest session and its options *)

Definition truthy (b : binding) : bool :=
  match b with
  | BBool b => b
  | _ => true
  end.

(** [session.config.getoption(opt)] *)
Definition session_getoption (session : binding) (opt : string) : result bool :=
  match session with
  | BSession getoption => Ok (getoption opt)
  | _ => Raise AttributeError
  end.

(** The names the interpreter binds in every module. *)
Definition module_attributes : list string :=
  ["__name__"; "__doc__"; "__package__"; "__loader__"; "__spec__";
   "__file__"; "__cached__"; "__path__"; "__builtins__"].

(** The names of [builtins]. *)
Definition python_builtins : list string :=
  ["abs"; "aiter"; "all"; "anext"; "any"; "ascii"; "bin"; "bool";
   "breakpoint"; "bytearray"; "bytes"; "callable"; "chr"; "classmethod";
   "compile"; "complex"; "delattr"; "dict"; "dir"; "divmod"; "enumerate";
   "eval"; "exec"; "filter"; "float"; "format"; "frozenset"; "getattr";
   "globals"; "hasattr"; "hash"; "help"; "hex"; "id"; "input"; "int";
   "isinstance"; "issubclass"; "iter"; "len"; "list"; "locals"; "map";
   "max"; "memoryview"; "min"; "next"; "object"; "oct"; "open"; "ord";
   "pow"; "print"; "property"; "range"; "repr"; "reversed"; "round";
   "set"; "setattr"; "slice"; "sorted"; "staticmethod"; "str"; "sum";
   "super"; "tuple"; "type"; "vars"; "zip"; "__import__";
   "__build_class__"; "__debug__"; "copyright"; "credits"; "license";
   "exit"; "quit";
   "True"; "False"; "None"; "Ellipsis"; "NotImplemented";
   "BaseException"; "BaseExceptionGroup"; "Exception"; "ExceptionGroup";
   "GeneratorExit"; "KeyboardInterrupt"; "SystemExit"; "StopIteration";
   "StopAsyncIteration"; "ArithmeticError"; "AssertionError";
   "AttributeError"; "BufferError"; "EOFError"; "ImportError";
   "ModuleNotFoundError"; "LookupError"; "IndexError"; "KeyError";
   "MemoryError"; "NameError"; "UnboundLocalError"; "OSError";
   "EnvironmentError"; "IOError"; "BlockingIOError"; "ChildProcessError";
   "ConnectionError"; "BrokenPipeError"; "ConnectionAbortedError";
   "ConnectionRefusedError"; "ConnectionResetError"; "FileExistsError";
   "FileNotFoundError"; "InterruptedError"; "IsADirectoryError";
   "NotADirectoryError"; "PermissionError"; "ProcessLookupError";
   "TimeoutError"; "ReferenceError"; "RuntimeError";
   "NotImplementedError"; "RecursionError"; "SyntaxError";
   "IndentationError"; "TabError"; "SystemError"; "TypeError";
   "ValueError"; "UnicodeError"; "UnicodeDecodeError";
   "UnicodeEncodeError"; "UnicodeTranslateError"; "FloatingPointError";
   "OverflowError"; "ZeroDivisionError"; "Warning"; "BytesWarning";
   "DeprecationWarning"; "EncodingWarning"; "FutureWarning";
   "ImportWarning"; "PendingDeprecationWarning"; "ResourceWarning";
   "RuntimeWarning"; "SyntaxWarning"; "UnicodeWarning"; "UserWarning"].

Definition log_map : gmap Z Z :=
  list_to_map
    [(0%Z, logging_CRITICAL);
     (1%Z, logging_ERROR);
     (2%Z, logging_WARNING);
     (3%Z, logging_INFO);
     (4%Z, logging_DEBUG)].

(** What [pytest_configure] reads of the pytest configuration. *)
Record Config : Type := mkConfig {
  option_verbose : Z;
  invocation_dir : Path
}.

(** [t == u] for a tuple of [str] on the left. *)
Fixpoint tuple_eq (t : list string) (u : list PyVal) : bool :=
  match t, u with
  | [], [] => true
  | s :: t', v :: u' => str_eq s v && tuple_eq t' u'
  | _, _ => false
  end.

Definition environ_get (key fallback : string) : M string :=
  fun w => (Ok (default fallback (environ w !! key)), w).

Definition environ_set (key value : string) : M unit :=
  fun w => (Ok tt, set_environ (<[key := value]> (environ w)) w).

(** [sys.path.insert(0, entry)] *)
Definition sys_path_insert0 (entry : string) : M unit :=
  fun w => (Ok tt, set_sys_path (entry :: sys_path w) w).

(** [start_path.iterdir()]: the children of [start_path], listed when the
    loop starts. *)
Definition iterdir (p : Path) : M (list Path) :=
  names <- fs_ask (fun f => fs_listdir f p) ;;
  ret (map (fun n => p ++ [n]) names).

(** ** The module *)

Section Plugin.

Variable host : Host.

(** The global names of the module, as its top level binds them.  The
    three guarded imports bind their name only on success. *)
Definition module_globals : list (string * binding) :=
  map (fun n => (n, BObject n)) module_attributes
  ++ [("logging", BObject "logging"); ("os", BObject "os");
      ("sys", BObject "sys"); ("Path", BObject "Path");
      ("Optional", BObject "Optional"); ("Tuple", BObject "Tuple");
      ("pytest", BObject "pytest"); ("logger", BObject "logger")]
  ++ (if yaml_installed host then [("yaml", BObject "yaml")] else [])
  ++ [("HAS_YAML", BBool (yaml_installed host))]
  ++ (if ansible_installed host then [("__version__", BObject "__version__")] else [])
  ++ [("HAS_ANSIBLE", BBool (ansible_installed host))]
  ++ (if collection_finder_importable host
      then [("_AnsibleCollectionFinder", BObject "_AnsibleCollectionFinder")]
      else [])
  ++ [("HAS_COLLECTION_FINDER", BBool (collection_finder_importable host));
      ("pytest_addoption", BObject "pytest_addoption");
      ("pytest_configure", BObject "pytest_configure");
      ("get_collection_name", BObject "get_collection_name");
      ("inject", BObject "inject");
      ("inject_only", BObject "inject_only")].

Fixpoint assoc (name : string) (l : list (string * binding)) : option binding :=
  match l with
  | [] => None
  | (n, b) :: rest => if String.eqb name n then Some b else assoc name rest
  end.

(** Reading a name that is not local to the function: the module's
    globals, then the builtins, then [NameError]. *)
Definition load_name (name : string) : M binding :=
  match assoc name module_globals with
  | Some b => ret b
  | None =>
      if bool_decide (name ∈ python_builtins) then ret (BObject name)
      else raise (NameError name)
  end.

(** [_AnsibleCollectionFinder(paths=paths)._install()] *)
Definition install_collection_finder (paths : PyVal) : M unit :=
  _ <- load_name "_AnsibleCollectionFinder" ;;
  fun w => (Ok tt, set_finders (paths :: finders w) w).

Definition get_collection_name (start_path : Path) : M (PyVal * PyVal) :=
  info_file <- lift (truediv start_path (VStr "galaxy.yml")) ;;
  logger_info "Looking for collection info in %s" ;;
  loaded <-
    try_except
      (text <- fs_query (fun f => fs_read f info_file) ;;
       _ <- load_name "yaml" ;;
       galaxy_info <- lift (yaml_safe_load host text) ;;
       ret (Some galaxy_info))
      FileNotFoundError
      (logger_error "No galaxy.yml file found, plugin not activated" ;;
       ret None) ;;
  match loaded with
  | None => ret (VNone, VNone)
  | Some galaxy_info =>
      keys <-
        try_except
          (namespace <- lift (subscript galaxy_info "namespace") ;;
           name <- lift (subscript galaxy_info "name") ;;
           ret (Some (namespace, name)))
          KeyError
          (logger_error "galaxy.yml file does not contain namespace and name" ;;
           ret None) ;;
      match keys with
      | None => ret (VNone, VNone)
      | Some (namespace, name) =>
          logger_debug "galaxy.yml file found, plugin activated" ;;
          logger_info "Collection namespace: %s" ;;
          logger_info "Collection name: %s" ;;
          ret (namespace, name)
      end
  end.

Definition inject_only : M unit :=
  env_paths <- environ_get "ANSIBLE_COLLECTIONS_PATHS" "" ;;
  for_each (split_on (os_pathsep host) env_paths)
    (fun path => if bool_decide (path ≠ "") then sys_path_insert0 path else ret tt) ;;
  logger_debug "sys.path updated: %s" ;;
  has_finder <- load_name "HAS_COLLECTION_FINDER" ;;
  if truthy has_finder then install_collection_finder (VStr env_paths)
  else ret tt.

(** The part of [inject] that determines the collections directory, from
    "Determine if the start_path is in a collections tree" to the end of
    the [else] branch: the [ensure_tree] of the specification. *)
Definition ensure_tree (start_path : Path) (namespace name : PyVal) : M Path :=
  let collection_tree :=
    [VStr "collections"; VStr "ansible_collections"; namespace; name] in
  if tuple_eq (last_n 4 (parts start_path)) collection_tree then
    logger_info "In collection tree" ;;
    lift (path_parents start_path 2)
  else
    logger_info "Not in collection tree" ;;
    collections_dir <- lift (truediv start_path (VStr "collections")) ;;
    ansible_collections <- lift (truediv collections_dir (VStr "ansible_collections")) ;;
    namespace_dir <- lift (truediv ansible_collections namespace) ;;
    name_dir <- lift (truediv namespace_dir name) ;;
    is_dir <- fs_query (fun f => Ok (fs_is_dir f name_dir)) ;;
    (if negb is_dir then
       fs_update (fun f => fs_makedirs f name_dir) ;;
       entries <- iterdir start_path ;;
       for_each entries
         (fun entry =>
            if String.eqb (path_name entry) "collections" then ret tt
            else
              link <- lift (truediv name_dir (VStr (path_name entry))) ;;
              fs_update (fun f => fs_symlink f entry link))
     else ret tt) ;;
    ret collections_dir.

(** The rest of [inject], from "Collections dir" on: the [publish] of the
    specification. *)
Definition publish (collections_dir : Path) : M unit :=
  logger_info "Collections dir: %s" ;;
  let paths := [path_str collections_dir; "~/.ansible/collections"] in
  logger_info "Paths: %s" ;;
  has_finder <- load_name "HAS_COLLECTION_FINDER" ;;
  (if truthy has_finder then install_collection_finder (VList (map VStr paths))
   else ret tt) ;;
  sys_path_insert0 (path_str collections_dir) ;;
  logger_debug "sys.path updated: %s" ;;
  let env_paths := String.concat (String (os_pathsep host) "") paths in
  logger_info "Setting ANSIBLE_COLLECTIONS_PATH to %s" ;;
  environ_set "ANSIBLE_COLLECTIONS_PATHS" env_paths.

(** [inject] after its [--inject-only] check. *)
Definition inject_collection (start_path : Path) : M unit :=
  has_ansible <- load_name "HAS_ANSIBLE" ;;
  if negb (truthy has_ansible) then
    logger_error "ansible is not installed, plugin not activated"
  else
    has_yaml <- load_name "HAS_YAML" ;;
    if negb (truthy has_yaml) then
      logger_error "pyyaml is not installed, plugin not activated"
    else
      logger_debug "Start path: %s" ;;
      identity <- get_collection_name start_path ;;
      let '(namespace, name) := identity in
      if is_none namespace || is_none name then ret tt
      else
        collections_dir <- ensure_tree start_path namespace name ;;
        publish collections_dir.

Definition inject (start_path : Path) : M unit :=
  session <- load_name "session" ;;
  only <- lift (session_getoption session "--inject-only") ;;
  if only then
    logger_info "Injecting only, not installing collection finder" ;;
    inject_only
  else inject_collection start_path.

Definition pytest_configure (config : Config) : M unit :=
  let level := log_map !! option_verbose config in
  logging_basicConfig level ;;
  logger_debug "Logging initialized" ;;
  inject (invocation_dir config).

End Plugin.

(** ** Derived notions used in the statements *)

(** The world after the optional finder step, which [inject] and
    [inject_only] share: the finder is installed with [paths] when the
    import of the finder class succeeded. *)
Definition with_finder (host : Host) (paths : PyVal) (w : World) : World :=
  if collection_finder_importable host
  then set_finders (paths :: finders w) w
  else w.

(** The five standard severities, by verbosity. *)
Definition standard_levels : list Z :=
  [logging_CRITICAL; logging_ERROR; logging_WARNING; logging_INFO; logging_DEBUG].

(** The metadata file of [start_path] does not exist. *)
Definition galaxy_missing (f : gmap Path node) (start_path : Path) : Prop :=
  stat f (start_path ++ ["galaxy.yml"]) = Raise FileNotFoundError.

(** A mapping has an entry for the key. *)
Definition has_key (key : string) (items : list (PyVal * PyVal)) : bool :=
  existsb (fun kv => str_eq key kv.1) items.

(** The metadata file of [start_path] parses to a mapping without a
    [namespace] or without a [name] entry. *)
Definition galaxy_lacks_key (host : Host) (f : gmap Path node) (start_path : Path) : Prop :=
  ∃ text items,
    fs_read f (start_path ++ ["galaxy.yml"]) = Ok text
    ∧ yaml_installed host = true
    ∧ yaml_safe_load host text = Ok (VDict items)
    ∧ (has_key "namespace" items = false ∨ has_key "name" items = false).

Definition is_mapping (v : PyVal) : bool :=
  match v with
  | VDict _ => true
  | _ => false
  end.

(** Two worlds that differ in the log at most. *)
Definition same_state (w w' : World) : Prop :=
  fs w' = fs w ∧ sys_path w' = sys_path w ∧ environ w' = environ w
  ∧ finders w' = finders w ∧ basic_config w' = basic_config w.

(** ** Well-formed filesystems and the collections tree *)

Fixpoint has_slash (s : string) : bool :=
  match s with
  | EmptyString => false
  | String c rest => Ascii.eqb c "/" || has_slash rest
  end.

(** A file name: not empty, not [.] or [..], without a slash or a NUL, and
    no longer than [NAME_MAX]. *)
Definition valid_name (s : string) : bool :=
  bool_decide (s ≠ "" ∧ s ≠ "." ∧ s ≠ "..")
  && negb (has_slash s)
  && negb (has_nul s)
  && negb (name_too_long s).

(** A directory is there. *)
Definition is_dir_node (o : option node) : bool :=
  match o with
  | Some Dir => true
  | _ => false
  end.

(** Every name down [p] is a real directory of [f]. *)
Definition plain_dir (f : gmap Path node) (p : Path) : bool :=
  forallb valid_name p
  && forallb (fun k => is_dir_node (f !! take k p)) (seq 1 (length p)).

(** A directory or nothing is there. *)
Definition dir_or_absent (f : gmap Path node) (p : Path) : bool :=
  match f !! p with
  | None | Some Dir => true
  | _ => false
  end.

(** Every entry has valid names and sits in a directory. *)
Definition wf_fs (f : gmap Path node) : bool :=
  forallb (fun k => forallb valid_name k
                    && is_dir_node (node_at f (removelast k)))
    (map_to_list f).*1.

(** A list of file names. *)
Abbreviation valid l := (Forall (fun s => valid_name s = true) l).

(** Every non-empty prefix of [rest], taken below [cur], is a directory. *)
Definition dirs (f : gmap Path node) (cur : Path) (rest : list string) : Prop :=
  ∀ k, 0 < k ≤ length rest -> f !! (cur ++ take k rest) = Some Dir.

(** No entry without a directory to hold it. *)
Definition orphan_free (f : gmap Path node) : Prop :=
  ∀ q c, is_Some (f !! (q ++ [c])) -> node_at f q = Some Dir.

(** The directories [os.makedirs] adds below [base]: the first [n] levels of
    [base/ext]. *)
Fixpoint add_dirs (f : gmap Path node) (base : Path) (ext : list string) (n : nat)
    : gmap Path node :=
  match n with
  | O => f
  | S n' => <[base ++ take n ext := Dir]> (add_dirs f base ext n')
  end.

(** The body of the loop over the entries of [start_path]. *)
Definition link_body (name_dir : Path) (entry : Path) : M unit :=
  if String.eqb (path_name entry) "collections" then ret tt
  else
    link <- lift (truediv name_dir (VStr (path_name entry))) ;;
    fs_update (fun f => fs_symlink f entry link).

(** The symbolic links that loop adds to [name_dir], one for each name of
    [l] but [collections]. *)
Definition link_entries (f : gmap Path node) (base name_dir : Path) (l : list string)
    : gmap Path node :=
  foldl (fun g n => if String.eqb n "collections" then g
                    else <[name_dir ++ [n] := Link (base ++ [n])]> g) f l.

(** The four names below [start_path] that make a collections tree. *)
Definition collection_chain (ns nm : string) : list string :=
  ["collections"; "ansible_collections"; ns; nm].

(** Nothing at [p], not even a dangling link. *)
Definition is_absent (f : gmap Path node) (p : Path) : bool :=
  match f !! p with
  | None => true
  | Some _ => false
  end.

(** Nothing stands in the way of a new tree below [base]: each of the three
    upper levels is a directory or absent, the collection directory itself
    is absent. *)
Definition tree_free (f : gmap Path node) (base : Path) (ns nm : string) : bool :=
  forallb (fun k => dir_or_absent f (base ++ take k (collection_chain ns nm)))
    [1; 2; 3]
  && is_absent f (base ++ collection_chain ns nm).

(** The operating system refuses nothing the tree step asks for: it lets
    [start_path] be listed and refuses no creation at or below
    [start_path/collections]. *)
Definition tree_permitted (w : World) (start_path : Path) : Prop :=
  os_refuses w Listing start_path = None
  ∧ ∀ q, (start_path ++ ["collections"]) `prefix_of` q ->
         os_refuses w Creating q = None.

(** The test of [inject]: the last four parts of [start_path] are those of
    a collections tree for the identity. *)
Definition in_tree (start_path : Path) (ns nm : string) : bool :=
  tuple_eq (last_n 4 (parts start_path))
    [VStr "collections"; VStr "ansible_collections"; VStr ns; VStr nm].


(** ** Example hosts and worlds *)

(** A loader for the few documents of the examples. *)
Definition example_safe_load (text : string) : result PyVal :=
  if String.eqb text "{namespace: foo, name: bar}" then
    Ok (VDict [(VStr "namespace", VStr "foo"); (VStr "name", VStr "bar")])
  else if String.eqb text "{name: bar}" then Ok (VDict [(VStr "name", VStr "bar")])
  else if String.eqb text "[foo, bar]" then Ok (VList [VStr "foo"; VStr "bar"])
  else if String.eqb text "" then Ok VNone
  else Raise YAMLError.

Definition host_full : Host := mkHost true true true ":" example_safe_load.
Definition host_no_finder : Host := mkHost true true false ":" example_safe_load.
Definition host_bare : Host := mkHost false false false ":" example_safe_load.

Definition world_of (f : gmap Path node) (env : gmap string string) : World :=
  mkWorld f ["/usr/lib/python3"] env [] [] [] (fun _ _ => None).

(** A collection checked out at [/repo]. *)
Definition fs_repo (galaxy : string) : gmap Path node :=
  list_to_map
    [(["repo"], Dir);
     (["repo"; "galaxy.yml"], File galaxy);
     (["repo"; "README.md"], File "units");
     (["repo"; "plugins"], Dir);
     (["repo"; "plugins"; "modules"], Dir);
     (["repo"; "tests"], Dir)].

(** The same directory without its metadata file. *)
Definition fs_no_galaxy : gmap Path node :=
  list_to_map [(["repo"], Dir); (["repo"; "tests"], Dir)].

(** A collection installed at [/work/collections/ansible_collections/foo/bar]. *)
Definition fs_installed : gmap Path node :=
  list_to_map
    [(["work"], Dir);
     (["work"; "collections"], Dir);
     (["work"; "collections"; "ansible_collections"], Dir);
     (["work"; "collections"; "ansible_collections"; "foo"], Dir);
     (["work"; "collections"; "ansible_collections"; "foo"; "bar"], Dir);
     (["work"; "collections"; "ansible_collections"; "foo"; "bar"; "galaxy.yml"],
      File "{namespace: foo, name: bar}")].

Definition env_a_b : gmap string string :=
  {[ "ANSIBLE_COLLECTIONS_PATHS" := "/a:/b" ]}.

(** ** More notions and examples *)

(** A [str]. *)
Definition is_str (v : PyVal) : bool :=
  match v with
  | VStr _ => true
  | _ => false
  end.

(** The character occurs in the string. *)
Fixpoint has_char (c : ascii) (s : string) : bool :=
  match s with
  | EmptyString => false
  | String c' rest => Ascii.eqb c' c || has_char c rest
  end.

(** The log after [get_collection_name] has found both values. *)
Definition identity_log (w : World) : list (Z * string) :=
  (logging_INFO, "Collection name: %s")
  :: (logging_INFO, "Collection namespace: %s")
  :: (logging_DEBUG, "galaxy.yml file found, plugin activated")
  :: (logging_INFO, "Looking for collection info in %s")
  :: log w.

(** A host whose metadata files all hold a null namespace. *)
Definition host_null_namespace : Host :=
  mkHost true true true ":"
    (fun _ => Ok (VDict [(VStr "namespace", VNone); (VStr "name", VStr "bar")])).

(** A checkout in which [collections] is a regular file. *)
Definition fs_blocked : gmap Path node :=
  list_to_map
    [(["repo"], Dir);
     (["repo"; "galaxy.yml"], File "{namespace: foo, name: bar}");
     (["repo"; "collections"], File "notes")].

(** The usual metadata file, what it parses to, and a fresh checkout. *)
Definition galaxy_foo_bar : string := "{namespace: foo, name: bar}".
Definition items_foo_bar : list (PyVal * PyVal) :=
  [(VStr "namespace", VStr "foo"); (VStr "name", VStr "bar")].
Definition world_repo : World := world_of (fs_repo galaxy_foo_bar) ∅.

(** A string of [n] letters. *)
Fixpoint letters (n : nat) : string :=
  match n with
  | O => ""
  | S m => String "a" (letters m)
  end.

(** The same checkout on a read-only filesystem. *)
Definition world_read_only : World :=
  mkWorld (fs_repo galaxy_foo_bar) ["/usr/lib/python3"] ∅ [] [] []
    (fun a _ => match a with Creating => Some (Refused EROFS) | Listing => None end).

(** The same checkout, which its owner may write to but not list. *)
Definition world_unlistable : World :=
  mkWorld (fs_repo galaxy_foo_bar) ["/usr/lib/python3"] ∅ [] [] []
    (fun a _ => match a with Listing => Some Denied | Creating => None end).


(** * Properties *)

(** ** Name lookup *)

Section Names.

Variable host : Host.

Lemma load_name_session w :
  load_name host "session" w = (Raise (NameError "session"), w).
Proof. destruct host as [[] [] [] sep load]; reflexivity. Qed.

Lemma load_name_HAS_ANSIBLE w :
  load_name host "HAS_ANSIBLE" w = (Ok (BBool (ansible_installed host)), w).
Proof. destruct host as [[] [] [] sep load]; reflexivity. Qed.

Lemma load_name_HAS_YAML w :
  load_name host "HAS_YAML" w = (Ok (BBool (yaml_installed host)), w).
Proof. destruct host as [[] [] [] sep load]; reflexivity. Qed.

Lemma load_name_HAS_COLLECTION_FINDER w :
  load_name host "HAS_COLLECTION_FINDER" w
  = (Ok (BBool (collection_finder_importable host)), w).
Proof. destruct host as [[] [] [] sep load]; reflexivity. Qed.

Lemma load_name_yaml w :
  yaml_installed host = true ->
  load_name host "yaml" w = (Ok (BObject "yaml"), w).
Proof.
  destruct host as [[] [] [] sep load]; simpl; intros; try discriminate; reflexivity.
Qed.

Lemma load_name_finder w :
  collection_finder_importable host = true ->
  load_name host "_AnsibleCollectionFinder" w
  = (Ok (BObject "_AnsibleCollectionFinder"), w).
Proof.
  destruct host as [[] [] [] sep load]; simpl; intros; try discriminate; reflexivity.
Qed.

(** The flag and the class are bound by the same import, so the guarded
    installation never fails on the name. *)
Lemma finder_step paths w :
  (has_finder <- load_name host "HAS_COLLECTION_FINDER" ;;
   if truthy has_finder then install_collection_finder host paths else ret tt) w
  = (Ok tt, with_finder host paths w).
Proof.
  unfold bind, with_finder. rewrite load_name_HAS_COLLECTION_FINDER. simpl.
  destruct (collection_finder_importable host) eqn:E; [|reflexivity].
  unfold install_collection_finder, bind. rewrite load_name_finder by done.
  reflexivity.
Qed.

(** The same step followed by more of the function. *)
Lemma finder_step_then {A} paths (k : M A) w :
  (has_finder <- load_name host "HAS_COLLECTION_FINDER" ;;
   (if truthy has_finder then install_collection_finder host paths else ret tt) ;;
   k) w
  = k (with_finder host paths w).
Proof.
  unfold bind, with_finder. rewrite load_name_HAS_COLLECTION_FINDER. simpl.
  destruct (collection_finder_importable host) eqn:E; [|reflexivity].
  unfold install_collection_finder, bind. rewrite load_name_finder by done.
  reflexivity.
Qed.

End Names.

(** ** The entry point *)

(** C2: [inject] reads the name [session], which neither the module nor the
    builtins bind, so every call raises [NameError] and leaves the whole
    world, the log included, as it found it. *)
Theorem inject_raises_NameError (host : Host) (start_path : Path) (w : World) :
  inject host start_path w = (Raise (NameError "session"), w).
Proof.
  unfold inject, bind. rewrite load_name_session. reflexivity.
Qed.

(** C1: on each of the anticipated failures (no metadata file, a metadata
    file without [namespace], ansible and pyyaml not installed) the call of
    [inject] does not return: it raises [NameError]. *)
Theorem inject_anticipated_failure_raises :
  inject host_full ["repo"] (world_of fs_no_galaxy ∅)
    = (Raise (NameError "session"), world_of fs_no_galaxy ∅)
  ∧ inject host_full ["repo"] (world_of (fs_repo "{name: bar}") ∅)
    = (Raise (NameError "session"), world_of (fs_repo "{name: bar}") ∅)
  ∧ inject host_bare ["repo"] (world_of (fs_repo "{namespace: foo, name: bar}") ∅)
    = (Raise (NameError "session"),
       world_of (fs_repo "{namespace: foo, name: bar}") ∅).
Proof. repeat split; vm_compute; reflexivity. Qed.

(** The same holds when pytest calls the plugin: the level is configured,
    then [inject] raises. *)
Lemma pytest_configure_raises (host : Host) (config : Config) (w : World) :
  (pytest_configure host config w).1 = Raise (NameError "session").
Proof.
  unfold pytest_configure, inject, bind, logging_basicConfig, logger_debug,
    logger_log.
  rewrite load_name_session. reflexivity.
Qed.

(** ** [inject_only] *)

Section InjectOnly.

Variable host : Host.

Lemma for_each_insert (l : list string) (w : World) :
  for_each l
    (fun path => if bool_decide (path ≠ "") then sys_path_insert0 path else ret tt) w
  = (Ok tt, set_sys_path (rev (filter (fun s => s ≠ "") l) ++ sys_path w) w).
Proof.
  revert w. induction l as [|x l IH]; intros w.
  - destruct w; reflexivity.
  - simpl. unfold bind. rewrite filter_cons.
    destruct (decide (x ≠ "")) as [Hx|Hx].
    + rewrite bool_decide_eq_true_2 by done.
      unfold sys_path_insert0 at 1. rewrite IH.
      destruct w; simpl. unfold set_sys_path; simpl.
      rewrite <- app_assoc. reflexivity.
    + rewrite bool_decide_eq_false_2 by done.
      unfold ret at 1. apply IH.
Qed.

(** What a call of [inject_only] does, in full: the non-empty pieces of the
    variable end up in front of [sys.path], the last one first; the finder
    receives the variable's text as it is. *)
Lemma inject_only_spec (w : World) :
  let env_paths := default "" (environ w !! "ANSIBLE_COLLECTIONS_PATHS") in
  inject_only host w
  = (Ok tt,
     with_finder host (VStr env_paths)
       (set_log ((logging_DEBUG, "sys.path updated: %s") :: log w)
          (set_sys_path
             (rev (filter (fun s => s ≠ "") (split_on (os_pathsep host) env_paths))
              ++ sys_path w) w))).
Proof.
  intros env_paths. unfold inject_only.
  unfold bind at 1. unfold environ_get. fold env_paths.
  unfold bind at 1. rewrite for_each_insert.
  unfold bind at 1. unfold logger_debug, logger_log.
  rewrite finder_step. destruct w; reflexivity.
Qed.

Lemma with_finder_fs paths w : fs (with_finder host paths w) = fs w.
Proof. unfold with_finder. destruct (collection_finder_importable host); reflexivity. Qed.

Lemma with_finder_sys_path paths w :
  sys_path (with_finder host paths w) = sys_path w.
Proof. unfold with_finder. destruct (collection_finder_importable host); reflexivity. Qed.

Lemma with_finder_environ paths w :
  environ (with_finder host paths w) = environ w.
Proof. unfold with_finder. destruct (collection_finder_importable host); reflexivity. Qed.

End InjectOnly.

(** C7, as amended: with the variable set to [/a:/b] and [:] the separator,
    [inject_only] returns, each of [/a] and [/b] having been inserted at
    index 0 in turn, so [sys.path] begins with [/b], then [/a], then its
    prior entries; the filesystem is untouched. *)
Theorem inject_only_inserts_each_at_front (host : Host) (w : World) :
  os_pathsep host = ":"%char ->
  environ w !! "ANSIBLE_COLLECTIONS_PATHS" = Some "/a:/b" ->
  ∃ w', inject_only host w = (Ok tt, w')
        ∧ sys_path w' = "/b" :: "/a" :: sys_path w
        ∧ fs w' = fs w.
Proof.
  intros Hsep Henv. eexists. split; [apply inject_only_spec|].
  rewrite with_finder_sys_path, with_finder_fs, Henv, Hsep. simpl.
  split; reflexivity.
Qed.

Lemma inject_only_inserts_each_at_front_witness :
  ∃ w', inject_only host_full (world_of ∅ env_a_b) = (Ok tt, w')
        ∧ sys_path w' = "/b" :: "/a" :: sys_path (world_of ∅ env_a_b)
        ∧ fs w' = fs (world_of ∅ env_a_b).
Proof.
  apply (inject_only_inserts_each_at_front host_full (world_of ∅ env_a_b));
    reflexivity.
Defined.

(** C7, as stated, fails: after the call [sys.path] does not begin with
    [/a] followed by [/b]. *)
Lemma inject_only_order_counterexample :
  sys_path (inject_only host_full (world_of ∅ env_a_b)).2
  ≠ "/a" :: "/b" :: sys_path (world_of ∅ env_a_b).
Proof. vm_compute. discriminate. Qed.

(** C8: with the variable set to [/a:/b] the finder is constructed with the
    text [/a:/b] itself, not with the list of the two paths that were
    inserted into [sys.path]. *)
Theorem inject_only_finder_gets_text :
  finders (inject_only host_full (world_of ∅ env_a_b)).2 = [VStr "/a:/b"]
  ∧ finders (inject_only host_full (world_of ∅ env_a_b)).2
    ≠ [VList [VStr "/a"; VStr "/b"]]
  ∧ take 2 (sys_path (inject_only host_full (world_of ∅ env_a_b)).2) = ["/b"; "/a"].
Proof. vm_compute. repeat split; discriminate. Qed.

(** ** Publishing the collections directory *)

Section Publish.

Variable host : Host.

Lemma publish_spec (d : Path) (w : World) :
  let paths := [path_str d; "~/.ansible/collections"] in
  ∃ w', publish host d w = (Ok tt, w')
        ∧ fs w' = fs w
        ∧ sys_path w' = path_str d :: sys_path w
        ∧ environ w'
          = <["ANSIBLE_COLLECTIONS_PATHS" :=
                String.concat (String (os_pathsep host) "") paths]> (environ w)
        ∧ finders w'
          = (if collection_finder_importable host
             then [VList (map VStr paths)] else []) ++ finders w.
Proof.
  intros paths. unfold publish.
  unfold bind at 1. unfold logger_info at 1, logger_log.
  unfold bind at 1. unfold logger_info at 1, logger_log.
  rewrite finder_step_then.
  unfold bind, sys_path_insert0, logger_debug, logger_info, logger_log, environ_set.
  eexists. split; [reflexivity|]. simpl.
  rewrite with_finder_fs, with_finder_sys_path, with_finder_environ.
  unfold with_finder. destruct (collection_finder_importable host); auto.
Qed.

End Publish.

(** C6: the publish step of [inject] always returns; after it the variable
    [ANSIBLE_COLLECTIONS_PATHS] holds [str(d)], the separator and
    [~/.ansible/collections], and [str(d)] is the first entry of
    [sys.path]. *)
Theorem publish_sets_environment_and_path (host : Host) (d : Path) (w : World) :
  ∃ w', publish host d w = (Ok tt, w')
        ∧ environ w' !! "ANSIBLE_COLLECTIONS_PATHS"
          = Some (path_str d +:+ String (os_pathsep host) "" +:+ "~/.ansible/collections")
        ∧ sys_path w' !! 0%nat = Some (path_str d).
Proof.
  destruct (publish_spec host d w) as (w' & Hrun & _ & Hpath & Henv & _).
  exists w'. split; [exact Hrun|]. rewrite Henv, Hpath. split.
  - rewrite lookup_insert_eq. reflexivity.
  - reflexivity.
Qed.

(** ** The logging level *)

Lemma pytest_configure_basic_config (host : Host) (config : Config) (w : World) :
  basic_config (pytest_configure host config w).2
  = (log_map !! option_verbose config) :: basic_config w.
Proof.
  unfold pytest_configure, inject, bind, logging_basicConfig, logger_debug,
    logger_log.
  rewrite load_name_session. reflexivity.
Qed.

Lemma verbosity_cases (v : Z) :
  (0 <= v <= 4)%Z -> v = 0%Z ∨ v = 1%Z ∨ v = 2%Z ∨ v = 3%Z ∨ v = 4%Z.
Proof. lia. Qed.

(** C9: a verbosity between 0 and 4 is mapped to the severity at its place
    in CRITICAL, ERROR, WARNING, INFO, DEBUG, which is the level
    [pytest_configure] hands to [logging.basicConfig]; two verbosities in
    the range never share a severity, and each of the five severities is
    the image of one. *)
Theorem pytest_configure_level (host : Host) (config : Config) (w : World) :
  let v := option_verbose config in
  (0 <= v <= 4)%Z ->
  log_map !! v = standard_levels !! Z.to_nat v
  ∧ is_Some (log_map !! v)
  ∧ basic_config (pytest_configure host config w).2
    = (log_map !! v) :: basic_config w
  ∧ (∀ v', (0 <= v' <= 4)%Z -> log_map !! v' = log_map !! v -> v' = v)
  ∧ (∀ level, level ∈ standard_levels ->
       ∃ v', (0 <= v' <= 4)%Z ∧ log_map !! v' = Some level).
Proof.
  intros v Hv. split_and!.
  - destruct (verbosity_cases v Hv) as [->|[->|[->|[->| ->]]]]; reflexivity.
  - destruct (verbosity_cases v Hv) as [->|[->|[->|[->| ->]]]]; vm_compute; eauto.
  - apply pytest_configure_basic_config.
  - intros v' Hv'.
    destruct (verbosity_cases v Hv) as [->|[->|[->|[->| ->]]]];
      destruct (verbosity_cases v' Hv') as [->|[->|[->|[->| ->]]]];
      vm_compute; congruence.
  - intros level Hl. unfold standard_levels in Hl.
    repeat (apply elem_of_cons in Hl as [->|Hl]).
    + exists 0%Z. split; [lia | reflexivity].
    + exists 1%Z. split; [lia | reflexivity].
    + exists 2%Z. split; [lia | reflexivity].
    + exists 3%Z. split; [lia | reflexivity].
    + exists 4%Z. split; [lia | reflexivity].
    + by apply elem_of_nil in Hl.
Qed.

Lemma pytest_configure_level_witness :
  log_map !! 2%Z = standard_levels !! 2%nat
  ∧ is_Some (log_map !! 2%Z)
  ∧ basic_config
      (pytest_configure host_full (mkConfig 2 ["repo"]) (world_of fs_no_galaxy ∅)).2
    = (log_map !! 2%Z) :: []
  ∧ (∀ v', (0 <= v' <= 4)%Z -> log_map !! v' = log_map !! 2%Z -> v' = 2%Z)
  ∧ (∀ level, level ∈ standard_levels ->
       ∃ v', (0 <= v' <= 4)%Z ∧ log_map !! v' = Some level).
Proof.
  apply (pytest_configure_level host_full (mkConfig 2 ["repo"])
           (world_of fs_no_galaxy ∅)).
  simpl. lia.
Defined.

(** ** The collection identity *)

Section Identity.

Variable host : Host.

Lemma truediv_galaxy (p : Path) :
  truediv p (VStr "galaxy.yml") = Ok (p ++ ["galaxy.yml"]).
Proof. reflexivity. Qed.

Lemma has_key_false key items :
  has_key key items = false -> dict_get key items = Raise KeyError.
Proof.
  induction items as [|[k v] items IH]; simpl; [done|].
  intros [Hk Hrest]%orb_false_iff. rewrite Hk. auto.
Qed.

Lemma has_key_true key items :
  has_key key items = true -> ∃ v, dict_get key items = Ok v.
Proof.
  induction items as [|[k v] items IH]; simpl; [done|].
  destruct (str_eq key k); simpl; eauto.
Qed.

Lemma same_state_refl w : same_state w w.
Proof. by repeat split. Qed.

Lemma same_state_log w l : same_state w (set_log l w).
Proof. by repeat split. Qed.

Lemma same_state_trans w1 w2 w3 :
  same_state w1 w2 -> same_state w2 w3 -> same_state w1 w3.
Proof.
  unfold same_state. intros (-> & -> & -> & -> & ->) (-> & -> & -> & -> & ->).
  done.
Qed.

Lemma fs_read_missing (f : gmap Path node) (p : Path) :
  stat f p = Raise FileNotFoundError -> fs_read f p = Raise FileNotFoundError.
Proof. unfold fs_read. by intros ->. Qed.

(** No metadata file: the first handler returns the empty identity. *)
Lemma get_collection_name_missing start_path w :
  galaxy_missing (fs w) start_path ->
  ∃ w', get_collection_name host start_path w = (Ok (VNone, VNone), w')
        ∧ same_state w w'.
Proof.
  intros Hmiss%fs_read_missing.
  unfold get_collection_name, bind, lift, try_except, fs_query.
  rewrite truediv_galaxy. simpl. rewrite Hmiss. simpl.
  eexists. split; [reflexivity|]. by repeat split.
Qed.

(** A mapping without one of the two keys: the second handler does. *)
Lemma get_collection_name_lacks_key start_path w :
  galaxy_lacks_key host (fs w) start_path ->
  ∃ w', get_collection_name host start_path w = (Ok (VNone, VNone), w')
        ∧ same_state w w'.
Proof.
  intros (text & items & Hread & Hyaml & Hload & Hkey).
  unfold get_collection_name, bind, lift, try_except, fs_query.
  rewrite truediv_galaxy. simpl. rewrite Hread.
  rewrite load_name_yaml by done. rewrite Hload. simpl.
  destruct (has_key "namespace" items) eqn:Hns.
  - destruct Hkey as [?|Hname]; [done|].
    apply has_key_true in Hns as [ns ->].
    rewrite (has_key_false _ _ Hname). simpl.
    eexists. split; [reflexivity|]. by repeat split.
  - rewrite (has_key_false _ _ Hns). simpl.
    eexists. split; [reflexivity|]. by repeat split.
Qed.

Lemma get_collection_name_unresolved start_path w :
  galaxy_missing (fs w) start_path ∨ galaxy_lacks_key host (fs w) start_path ->
  ∃ w', get_collection_name host start_path w = (Ok (VNone, VNone), w')
        ∧ same_state w w'.
Proof.
  intros [H|H]; [by apply get_collection_name_missing
                |by apply get_collection_name_lacks_key].
Qed.

End Identity.

(** C3: when the metadata file does not exist, or parses to a mapping
    without [namespace] or without [name], [get_collection_name] returns
    [(None, None)] and only logs; and [inject], past its option check,
    returns at once: the filesystem, [sys.path], the environment and the
    finders are as before. *)
Theorem unresolved_identity_short_circuits (host : Host) (start_path : Path) (w : World) :
  galaxy_missing (fs w) start_path ∨ galaxy_lacks_key host (fs w) start_path ->
  (∃ w', get_collection_name host start_path w = (Ok (VNone, VNone), w')
         ∧ same_state w w')
  ∧ (∃ w', inject_collection host start_path w = (Ok tt, w')
           ∧ same_state w w').
Proof.
  intros H. split; [by apply get_collection_name_unresolved|].
  unfold inject_collection, bind.
  rewrite load_name_HAS_ANSIBLE. simpl.
  destruct (ansible_installed host); simpl.
  2: { eexists. split; [reflexivity|]. apply same_state_log. }
  rewrite load_name_HAS_YAML. simpl.
  destruct (yaml_installed host) eqn:Hyaml; simpl.
  2: { eexists. split; [reflexivity|]. apply same_state_log. }
  match goal with |- context [get_collection_name host start_path ?x] =>
    set (w1 := x) end.
  destruct (get_collection_name_unresolved host start_path w1) as (w' & -> & Hsame).
  { destruct H as [H|(text & items & H)]; [left; exact H|right].
    exists text, items. exact H. }
  simpl. exists w'. split; [reflexivity|].
  eapply same_state_trans; [apply (same_state_log w)|exact Hsame].
Qed.

Lemma unresolved_identity_short_circuits_witness :
  (∃ w', get_collection_name host_full ["repo"] (world_of fs_no_galaxy ∅)
         = (Ok (VNone, VNone), w')
         ∧ same_state (world_of fs_no_galaxy ∅) w')
  ∧ (∃ w', inject_collection host_full ["repo"] (world_of fs_no_galaxy ∅)
           = (Ok tt, w')
           ∧ same_state (world_of fs_no_galaxy ∅) w').
Proof.
  apply (unresolved_identity_short_circuits host_full ["repo"]
           (world_of fs_no_galaxy ∅)).
  left. reflexivity.
Defined.

(** A metadata file that has a [name] only lacks a key. *)
Example galaxy_lacks_key_example :
  galaxy_lacks_key host_full (fs_repo "{name: bar}") ["repo"].
Proof.
  exists "{name: bar}", [(VStr "name", VStr "bar")].
  repeat split. left. reflexivity.
Qed.

(** C10: when the metadata file parses to anything but a mapping, the
    subscript [galaxy_info["namespace"]] raises [TypeError], which neither
    handler catches: [get_collection_name] raises it and does not return
    [(None, None)]. *)
Theorem get_collection_name_not_a_mapping
    (host : Host) (start_path : Path) (w : World) (text : string) (v : PyVal) :
  fs_read (fs w) (start_path ++ ["galaxy.yml"]) = Ok text ->
  yaml_installed host = true ->
  yaml_safe_load host text = Ok v ->
  is_mapping v = false ->
  ∃ w', get_collection_name host start_path w = (Raise TypeError, w')
        ∧ same_state w w'.
Proof.
  intros Hread Hyaml Hload Hmap.
  unfold get_collection_name, bind, lift, try_except, fs_query.
  rewrite truediv_galaxy. simpl. rewrite Hread.
  rewrite load_name_yaml by done. rewrite Hload. simpl.
  assert (subscript v "namespace" = Raise TypeError) as ->
    by (destruct v; try reflexivity; discriminate).
  simpl. eexists. split; [reflexivity|]. by repeat split.
Qed.

Lemma get_collection_name_not_a_mapping_witness :
  ∃ w', get_collection_name host_full ["repo"] (world_of (fs_repo "") ∅)
        = (Raise TypeError, w')
        ∧ same_state (world_of (fs_repo "") ∅) w'.
Proof.
  apply (get_collection_name_not_a_mapping host_full ["repo"]
           (world_of (fs_repo "") ∅) "" VNone); reflexivity.
Defined.

(** The same on a metadata file that holds a list. *)
Example get_collection_name_list :
  (get_collection_name host_full ["repo"] (world_of (fs_repo "[foo, bar]") ∅)).1
  = Raise TypeError.
Proof. reflexivity. Qed.

(** A valid metadata file gives its two values. *)
Example get_collection_name_valid :
  (get_collection_name host_full ["repo"]
     (world_of (fs_repo "{namespace: foo, name: bar}") ∅)).1
  = Ok (VStr "foo", VStr "bar").
Proof. reflexivity. Qed.

(** ** The collections tree *)

Section CollectionTree.

Lemma tuple_eq_map (t : list string) : tuple_eq t (map VStr t) = true.
Proof.
  induction t as [|s t IH]; simpl; [done|].
  by rewrite String.eqb_refl, IH.
Qed.

Lemma tuple_eq_true (t : list string) (u : list PyVal) :
  tuple_eq t u = true -> u = map VStr t.
Proof.
  revert u. induction t as [|s t IH]; intros [|v u]; simpl; try done.
  intros [Hs Ht]%andb_true_iff. destruct v; simpl in Hs; try done.
  apply String.eqb_eq in Hs as ->. by rewrite (IH u Ht).
Qed.

Lemma take_all_but_three (l : list string) (c a ns nm : string) :
  take (length (l ++ [c; a; ns; nm]) - 3) (l ++ [c; a; ns; nm]) = l ++ [c].
Proof.
  rewrite length_app. simpl.
  replace (length l + 4 - 3) with (length l + 1) by lia.
  by rewrite take_app_add'.
Qed.

(** A path whose parts end in the four names of a collections tree is at
    least four names long, and is its ancestor three levels up followed by
    the last three. *)
Lemma in_tree_shape (p : Path) (ns nm : string) :
  last_n 4 (parts p) = ["collections"; "ansible_collections"; ns; nm] ->
  3 < length p
  ∧ p = take (length p - 3) p ++ ["ansible_collections"; ns; nm]
  ∧ List.last (take (length p - 3) p) "" = "collections".
Proof.
  unfold last_n, parts. intros H.
  assert (3 < length p) as Hlen.
  { destruct (decide (3 < length p)) as [|Hn]; [done|exfalso].
    assert (length (drop (length ("/" :: p) - 4) ("/" :: p)) = 4) as Hl
      by (by rewrite H).
    rewrite length_drop in Hl. simpl in Hl.
    assert (length p = 3) as Hp by lia.
    change (length ("/" :: p)) with (S (length p)) in H.
    rewrite Hp in H. simpl in H. discriminate. }
  split; [exact Hlen|].
  replace (length ("/" :: p) - 4) with (S (length p - 4)) in H by (simpl; lia).
  simpl in H.
  assert (p = take (length p - 4) p
              ++ ["collections"; "ansible_collections"; ns; nm]) as Hp
    by (by rewrite <- H, take_drop).
  rewrite Hp, take_all_but_three. split.
  - by rewrite <- app_assoc.
  - by rewrite last_last.
Qed.

Lemma ensure_tree_in_tree (start_path : Path) (namespace name : PyVal) (w : World) :
  map VStr (last_n 4 (parts start_path))
    = [VStr "collections"; VStr "ansible_collections"; namespace; name] ->
  ensure_tree start_path namespace name w
  = (Ok (take (length start_path - 3) start_path),
     set_log ((logging_INFO, "In collection tree") :: log w) w).
Proof.
  intros H. unfold ensure_tree. rewrite <- H, tuple_eq_map.
  destruct (last_n 4 (parts start_path)) as [|a [|b [|ns [|nm [|]]]]] eqn:Hparts;
    try discriminate.
  injection H as -> -> _ _.
  destruct (in_tree_shape _ _ _ Hparts) as (Hlen & _).
  unfold bind, logger_info, logger_log, lift, path_parents.
  rewrite decide_True by lia. reflexivity.
Qed.

End CollectionTree.

(** C4: when the last four parts of [start_path] are [collections],
    [ansible_collections], the namespace and the name, the tree step
    returns the ancestor three levels up, [start_path.parents[2]], which
    is the [collections] directory above [start_path]; it creates nothing:
    the world changes in its log only. *)
Theorem ensure_tree_inside_collections_tree
    (start_path : Path) (namespace name : PyVal) (w : World) :
  map VStr (last_n 4 (parts start_path))
    = [VStr "collections"; VStr "ansible_collections"; namespace; name] ->
  ∃ d w',
    ensure_tree start_path namespace name w = (Ok d, w')
    ∧ path_parents start_path 2 = Ok d
    ∧ d = take (length start_path - 3) start_path
    ∧ path_name d = "collections"
    ∧ (∃ ns nm, namespace = VStr ns ∧ name = VStr nm
                ∧ start_path = d ++ ["ansible_collections"; ns; nm])
    ∧ same_state w w'.
Proof.
  intros H. eexists _, _. split; [by apply ensure_tree_in_tree|].
  destruct (last_n 4 (parts start_path)) as [|a [|b [|ns [|nm [|]]]]] eqn:Hparts;
    try discriminate.
  injection H as -> -> <- <-.
  destruct (in_tree_shape _ _ _ Hparts) as (Hlen & Hshape & Hlast).
  split_and!.
  - unfold path_parents. by rewrite decide_True by lia.
  - reflexivity.
  - exact Hlast.
  - by exists ns, nm.
  - apply same_state_log.
Qed.

Lemma ensure_tree_inside_collections_tree_witness :
  ∃ d w',
    ensure_tree ["work"; "collections"; "ansible_collections"; "foo"; "bar"]
      (VStr "foo") (VStr "bar") (world_of fs_installed ∅) = (Ok d, w')
    ∧ path_parents ["work"; "collections"; "ansible_collections"; "foo"; "bar"] 2
      = Ok d
    ∧ d = ["work"; "collections"]
    ∧ path_name d = "collections"
    ∧ (∃ ns nm, VStr "foo" = VStr ns ∧ VStr "bar" = VStr nm
                ∧ ["work"; "collections"; "ansible_collections"; "foo"; "bar"]
                  = d ++ ["ansible_collections"; ns; nm])
    ∧ same_state (world_of fs_installed ∅) w'.
Proof.
  apply (ensure_tree_inside_collections_tree
           ["work"; "collections"; "ansible_collections"; "foo"; "bar"]
           (VStr "foo") (VStr "bar") (world_of fs_installed ∅)).
  reflexivity.
Defined.

(** ** Names and paths *)

Lemma split_on_no_sep s : has_slash s = false -> split_on "/" s = [s].
Proof.
  induction s as [|c s IH]; simpl; [done|].
  intros [Hc Hs]%orb_false_iff. rewrite Hc, (IH Hs). done.
Qed.

Lemma valid_name_spec s :
  valid_name s = true -> s ≠ "" ∧ s ≠ "." ∧ s ≠ ".." ∧ has_slash s = false.
Proof.
  unfold valid_name. intros [[[H1 H2]%andb_true_iff _]%andb_true_iff _]%andb_true_iff.
  apply bool_decide_eq_true in H1 as (? & ? & ?). apply negb_true_iff in H2. done.
Qed.

Lemma valid_name_no_nul s : valid_name s = true -> has_nul s = false.
Proof.
  unfold valid_name. intros [[_ H]%andb_true_iff _]%andb_true_iff.
  by apply negb_true_iff in H.
Qed.

Lemma valid_name_short s : valid_name s = true -> name_too_long s = false.
Proof.
  unfold valid_name. intros [_ H]%andb_true_iff. by apply negb_true_iff in H.
Qed.

Lemma valid_no_nul (p : Path) :
  Forall (fun s => valid_name s = true) p -> existsb has_nul p = false.
Proof.
  induction 1 as [|s p Hs _ IH]; simpl; [done|].
  by rewrite (valid_name_no_nul s Hs), IH.
Qed.

Lemma truediv_name p s :
  valid_name s = true -> truediv p (VStr s) = Ok (p ++ [s]).
Proof.
  intros (Hne & Hdot & _ & Hslash)%valid_name_spec. unfold truediv, segments.
  rewrite split_on_no_sep by done.
  assert (is_absolute s = false) as ->.
  { destruct s as [|c s]; simpl in *; [done|]. by apply orb_false_iff in Hslash as [-> _]. }
  rewrite filter_cons, decide_True by done. done.
Qed.

Lemma valid_not_dotdot s : valid_name s = true -> String.eqb s ".." = false.
Proof.
  intros (_ & _ & H & _)%valid_name_spec. by apply String.eqb_neq.
Qed.

(** ** Path resolution *)

Lemma resolve_from_nil links f follow cur :
  resolve_from links f follow cur [] = Ok cur.
Proof. destruct links; reflexivity. Qed.

Lemma resolve_from_dir links f follow cur c rest :
  valid_name c = true ->
  f !! (cur ++ [c]) = Some Dir ->
  resolve_from links f follow cur (c :: rest)
  = resolve_from links f follow (cur ++ [c]) rest.
Proof.
  intros Hc Hd. destruct links; simpl;
    rewrite (valid_not_dotdot c Hc), (valid_name_short c Hc), Hd; reflexivity.
Qed.

Lemma resolve_from_last links f follow cur c :
  valid_name c = true ->
  (∀ t, f !! (cur ++ [c]) = Some (Link t) -> follow = false) ->
  resolve_from links f follow cur [c] = Ok (cur ++ [c]).
Proof.
  intros Hc Hl. destruct links; simpl;
    rewrite (valid_not_dotdot c Hc), (valid_name_short c Hc);
    destruct (f !! (cur ++ [c])) as [[| |t]|] eqn:E; try reflexivity;
    rewrite (Hl t eq_refl); reflexivity.
Qed.

Lemma resolve_from_absent links f follow cur c c' rest :
  valid_name c = true ->
  f !! (cur ++ [c]) = None ->
  resolve_from links f follow cur (c :: c' :: rest) = Raise FileNotFoundError.
Proof.
  intros Hc Hd. destruct links; simpl;
    rewrite (valid_not_dotdot c Hc), (valid_name_short c Hc), Hd; reflexivity.
Qed.

Lemma dirs_cons f cur c rest :
  dirs f cur (c :: rest) -> f !! (cur ++ [c]) = Some Dir ∧ dirs f (cur ++ [c]) rest.
Proof.
  intros H. split.
  - apply (H 1). simpl. lia.
  - intros k Hk. rewrite <- app_assoc. apply (H (S k)). simpl. lia.
Qed.

Lemma resolve_from_dirs links f follow cur rest :
  Forall (fun s => valid_name s = true) rest ->
  dirs f cur rest ->
  resolve_from links f follow cur rest = Ok (cur ++ rest).
Proof.
  revert cur. induction rest as [|c rest IH]; intros cur Hv Hd.
  - by rewrite resolve_from_nil, app_nil_r.
  - apply Forall_cons in Hv as [Hc Hv]. apply dirs_cons in Hd as [Hd1 Hd].
    rewrite resolve_from_dir by done.
    rewrite IH by done. by rewrite <- app_assoc.
Qed.

(** The last name of a path below a chain of directories is found where it is
    written. *)
Lemma resolve_from_below links f follow cur rest c :
  Forall (fun s => valid_name s = true) rest ->
  valid_name c = true ->
  dirs f cur rest ->
  (∀ t, f !! (cur ++ rest ++ [c]) = Some (Link t) -> follow = false) ->
  resolve_from links f follow cur (rest ++ [c]) = Ok (cur ++ rest ++ [c]).
Proof.
  revert cur. induction rest as [|d rest IH]; intros cur Hv Hc Hd Hl.
  - simpl. by apply resolve_from_last.
  - apply Forall_cons in Hv as [Hd1 Hv]. apply dirs_cons in Hd as [Hdd Hd].
    simpl. rewrite resolve_from_dir by done.
    rewrite IH; auto.
    + by rewrite <- app_assoc.
    + intros t. rewrite <- app_assoc. apply Hl.
Qed.

Lemma resolve_from_through links f follow cur rest more :
  valid rest ->
  dirs f cur rest ->
  resolve_from links f follow cur (rest ++ more)
  = resolve_from links f follow (cur ++ rest) more.
Proof.
  revert cur. induction rest as [|c rest IH]; intros cur Hv Hd.
  - by rewrite app_nil_r.
  - apply Forall_cons in Hv as [Hc Hv]. apply dirs_cons in Hd as [Hd1 Hd].
    simpl. rewrite resolve_from_dir by done.
    rewrite IH by done. by rewrite <- app_assoc.
Qed.

(** ** Chains of directories *)

Lemma dirs_singleton f cur c : f !! (cur ++ [c]) = Some Dir -> dirs f cur [c].
Proof. intros H k Hk. simpl in Hk. by replace k with 1 by lia. Qed.

Lemma dirs_nil f cur : dirs f cur [].
Proof. intros k Hk. simpl in Hk. lia. Qed.

Lemma dirs_app f cur p q :
  dirs f cur p -> dirs f (cur ++ p) q -> dirs f cur (p ++ q).
Proof.
  intros Hp Hq k Hk. rewrite length_app in Hk.
  destruct (decide (k ≤ length p)%nat) as [Hle|Hgt].
  - rewrite take_app_le by done. apply Hp. lia.
  - rewrite take_app_ge by lia. rewrite app_assoc. apply Hq. lia.
Qed.

Lemma dirs_app_l f cur p q : dirs f cur (p ++ q) -> dirs f cur p.
Proof.
  intros H k Hk. rewrite <- (take_app_le p q) by lia. apply H.
  rewrite length_app. lia.
Qed.

Lemma dirs_last f p : p ≠ [] -> dirs f [] p -> f !! p = Some Dir.
Proof.
  intros Hne H. specialize (H (length p)). rewrite firstn_all in H. apply H.
  destruct p; [done|simpl; lia].
Qed.

Lemma dirs_node f p : dirs f [] p -> node_at f p = Some Dir.
Proof.
  intros H. destruct p as [|x p]; [done|]. simpl. by apply dirs_last.
Qed.

Lemma dirs_insert f cur rest q n :
  (∀ k, 0 < k ≤ length rest -> q ≠ cur ++ take k rest) ->
  dirs f cur rest -> dirs (<[q := n]> f) cur rest.
Proof.
  intros Hq H k Hk. rewrite lookup_insert_ne by (apply Hq; done). by apply H.
Qed.

Lemma dirs_insert_dir f cur rest q :
  dirs f cur rest -> dirs (<[q := Dir]> f) cur rest.
Proof.
  intros H k Hk. destruct (decide (q = cur ++ take k rest)) as [->|Hne].
  - by rewrite lookup_insert_eq.
  - rewrite lookup_insert_ne by done. by apply H.
Qed.

(** ** The operations below a chain of directories *)

Lemma node_at_snoc (f : gmap Path node) (p : Path) (c : string) :
  node_at f (p ++ [c]) = f !! (p ++ [c]).
Proof. by destruct p. Qed.

Lemma node_at_nonempty (f : gmap Path node) (p : Path) :
  p ≠ [] -> node_at f p = f !! p.
Proof. by destruct p. Qed.

Section Operations.

Variable f : gmap Path node.
Variable refuse : access -> Path -> option refusal.
Variable p : Path.
Hypothesis Hvalid : valid p.
Hypothesis Hdirs : dirs f [] p.

Lemma resolve_dir follow : resolve f follow p = Ok p.
Proof. unfold resolve. by rewrite valid_no_nul, resolve_from_dirs. Qed.

Lemma stat_dir : stat f p = Ok (p, Dir).
Proof. unfold stat. by rewrite resolve_dir, dirs_node. Qed.

Lemma fs_is_dir_dir : fs_is_dir f p = true.
Proof. unfold fs_is_dir. by rewrite stat_dir. Qed.

Lemma fs_exists_dir : fs_exists f p = true.
Proof. unfold fs_exists. by rewrite stat_dir. Qed.

Lemma fs_listdir_dir :
  refuse Listing p = None ->
  fs_listdir (mkDisk f refuse) p = Ok (children f p).
Proof. intros Hr. unfold fs_listdir. cbn [nodes refuses]. by rewrite stat_dir, Hr. Qed.

Lemma valid_snoc c : valid_name c = true -> valid (p ++ [c]).
Proof. intros Hc. apply Forall_app. split; [done|by apply Forall_singleton]. Qed.

Lemma resolve_child follow c :
  valid_name c = true ->
  (∀ t, f !! (p ++ [c]) = Some (Link t) -> follow = false) ->
  resolve f follow (p ++ [c]) = Ok (p ++ [c]).
Proof.
  intros Hc Hl. unfold resolve.
  rewrite valid_no_nul by (by apply valid_snoc).
  by rewrite resolve_from_below.
Qed.

Lemma stat_child_absent c :
  valid_name c = true -> f !! (p ++ [c]) = None ->
  stat f (p ++ [c]) = Raise FileNotFoundError.
Proof.
  intros Hc Hn. unfold stat. rewrite resolve_child; [|done|by rewrite Hn].
  by rewrite node_at_snoc, Hn.
Qed.

Lemma stat_below_absent c c' rest :
  valid (c :: c' :: rest) -> f !! (p ++ [c]) = None ->
  stat f (p ++ c :: c' :: rest) = Raise FileNotFoundError.
Proof.
  intros Hv Hn. unfold stat, resolve.
  rewrite valid_no_nul by (by apply Forall_app).
  apply Forall_cons in Hv as [Hc _].
  rewrite resolve_from_through by done. simpl (_ ++ _).
  by rewrite resolve_from_absent by done.
Qed.

Lemma fs_mkdir_child c :
  valid_name c = true -> f !! (p ++ [c]) = None ->
  refuse Creating (p ++ [c]) = None ->
  fs_mkdir (mkDisk f refuse) (p ++ [c]) = (Ok tt, <[p ++ [c] := Dir]> f).
Proof.
  intros Hc Hn Hr. unfold fs_mkdir, create. cbn [nodes refuses].
  rewrite resolve_child by done.
  by rewrite node_at_snoc, Hn, Hr.
Qed.

Lemma fs_mkdir_child_exists c n :
  valid_name c = true -> f !! (p ++ [c]) = Some n ->
  fs_mkdir (mkDisk f refuse) (p ++ [c]) = (Raise FileExistsError, f).
Proof.
  intros Hc Hn. unfold fs_mkdir, create. cbn [nodes refuses].
  rewrite resolve_child by done.
  by rewrite node_at_snoc, Hn.
Qed.

Lemma fs_mkdir_child_refused c r :
  valid_name c = true -> f !! (p ++ [c]) = None ->
  refuse Creating (p ++ [c]) = Some r ->
  fs_mkdir (mkDisk f refuse) (p ++ [c]) = (Raise (refusal_error r), f).
Proof.
  intros Hc Hn Hr. unfold fs_mkdir, create. cbn [nodes refuses].
  rewrite resolve_child by done.
  by rewrite node_at_snoc, Hn, Hr.
Qed.

Lemma fs_symlink_child src c :
  valid src ->
  valid_name c = true -> f !! (p ++ [c]) = None ->
  refuse Creating (p ++ [c]) = None ->
  fs_symlink (mkDisk f refuse) src (p ++ [c]) = (Ok tt, <[p ++ [c] := Link src]> f).
Proof.
  intros Hs Hc Hn Hr. unfold fs_symlink, create. cbn [nodes refuses].
  rewrite (valid_no_nul src) by done.
  rewrite resolve_child by done.
  by rewrite node_at_snoc, Hn, Hr.
Qed.

End Operations.

(** ** [os.makedirs] *)

Lemma makedirs_rev_snoc refuse f head tail :
  makedirs_rev refuse f (rev (head ++ [tail]))
  = match (if fs_exists f head then (Ok tt, f)
           else match makedirs_rev refuse f (rev head) with
                | (Raise FileExistsError, f') => (Ok tt, f')
                | outcome => outcome
                end) with
    | (Ok _, f1) =>
        match fs_mkdir (mkDisk f1 refuse) (head ++ [tail]) with
        | (Ok _, f2) => (Ok tt, f2)
        | (Raise e, _) =>
            if fs_is_dir f1 (head ++ [tail]) then (Ok tt, f1) else (Raise e, f1)
        end
    | (Raise e, f1) => (Raise e, f1)
    end.
Proof.
  rewrite rev_unit. simpl. rewrite rev_involutive.
  replace (rev (rev head) ++ [tail]) with (head ++ [tail]); [done|].
  by rewrite rev_involutive.
Qed.

Lemma lookup_add_dirs_chain f base ext n k :
  (0 < k ≤ n)%nat -> add_dirs f base ext n !! (base ++ take k ext) = Some Dir.
Proof.
  induction n as [|n IH]; intros Hk; [lia|]. simpl.
  destruct (decide (k = S n)) as [->|Hne].
  - by rewrite lookup_insert_eq.
  - destruct (decide (base ++ take (S n) ext = base ++ take k ext)) as [->|Hq].
    + by rewrite lookup_insert_eq.
    + rewrite lookup_insert_ne by done. apply IH. lia.
Qed.

Lemma lookup_add_dirs_other f base ext n q :
  (∀ k, (0 < k ≤ n)%nat -> q ≠ base ++ take k ext) ->
  add_dirs f base ext n !! q = f !! q.
Proof.
  induction n as [|n IH]; intros Hq; [done|]. simpl.
  rewrite lookup_insert_ne by (intros E; eapply (Hq (S n)); [lia|done]).
  apply IH. intros k Hk. apply Hq. lia.
Qed.

Lemma lookup_add_dirs_dir f base ext n q :
  f !! q = Some Dir -> add_dirs f base ext n !! q = Some Dir.
Proof.
  intros Hq. induction n as [|n IH]; [done|]. simpl.
  destruct (decide (base ++ take (S n) ext = q)) as [->|Hne].
  - by rewrite lookup_insert_eq.
  - by rewrite lookup_insert_ne.
Qed.

Lemma add_dirs_id f base ext n :
  (∀ k, (0 < k ≤ n)%nat -> f !! (base ++ take k ext) = Some Dir) ->
  add_dirs f base ext n = f.
Proof.
  induction n as [|n IH]; intros H; [done|]. simpl.
  rewrite IH by (intros k Hk; apply H; lia).
  apply insert_id. apply H. lia.
Qed.

Lemma add_dirs_app f base ext more n :
  (n ≤ length ext)%nat -> add_dirs f base (ext ++ more) n = add_dirs f base ext n.
Proof.
  induction n as [|n IH]; intros Hn; [done|]. simpl.
  rewrite IH by lia. by rewrite take_app_le by lia.
Qed.

Lemma add_dirs_snoc f base ext x :
  add_dirs f base (ext ++ [x]) (length (ext ++ [x]))
  = <[base ++ ext ++ [x] := Dir]> (add_dirs f base ext (length ext)).
Proof.
  rewrite length_app, Nat.add_1_r. simpl.
  rewrite add_dirs_app by done.
  by rewrite take_ge by (rewrite length_app; simpl; lia).
Qed.

Lemma dirs_add_dirs f base ext n cur rest :
  dirs f cur rest -> dirs (add_dirs f base ext n) cur rest.
Proof. intros H k Hk. apply lookup_add_dirs_dir. by apply H. Qed.

Section Makedirs.

Variable f : gmap Path node.
Variable refuse : access -> Path -> option refusal.
Hypothesis Horphan : orphan_free f.

Lemma dirs_of_last base ext :
  f !! (base ++ ext) = Some Dir -> dirs f base ext.
Proof.
  induction ext as [|y ext IH] using rev_ind; intros Hd.
  - apply dirs_nil.
  - destruct ext as [|z ext'].
    + by apply dirs_singleton.
    + apply dirs_app.
      * apply IH. rewrite app_assoc in Hd.
        pose proof (Horphan (base ++ z :: ext') y) as Hp.
        rewrite Hd in Hp. specialize (Hp (mk_is_Some _ _ eq_refl)).
        rewrite node_at_nonempty in Hp by (by destruct base). done.
      * apply dirs_singleton. by rewrite <- app_assoc.
Qed.

Lemma absent_below q c : q ≠ [] -> f !! q = None -> f !! (q ++ [c]) = None.
Proof.
  intros Hne Hq. destruct (f !! (q ++ [c])) eqn:E; [|done].
  pose proof (Horphan q c) as Hp. rewrite E in Hp.
  specialize (Hp (mk_is_Some _ _ eq_refl)).
  rewrite node_at_nonempty in Hp by done. congruence.
Qed.

Lemma makedirs_existing p :
  valid p -> dirs f [] p -> makedirs_rev refuse f (rev p) = (Ok tt, f).
Proof.
  destruct p as [|x p _] using rev_ind; [done|]. intros Hv Hd.
  apply Forall_app in Hv as Hv'. destruct Hv' as [Hvp Hvx].
  rewrite Forall_singleton in Hvx.
  rewrite makedirs_rev_snoc.
  rewrite fs_exists_dir by eauto using dirs_app_l.
  rewrite (fs_mkdir_child_exists f refuse p Hvp (dirs_app_l _ _ _ _ Hd) x Dir Hvx)
    by (by apply dirs_last; [destruct p|]).
  by rewrite fs_is_dir_dir.
Qed.

Lemma stat_absent_chain base ext :
  valid base -> dirs f [] base -> valid ext ->
  (∀ k, (0 < k ≤ length ext)%nat -> dir_or_absent f (base ++ take k ext) = true) ->
  ext ≠ [] -> f !! (base ++ ext) = None ->
  stat f (base ++ ext) = Raise FileNotFoundError.
Proof.
  revert base. induction ext as [|x ext IH]; intros base Hvb Hdb Hve Hda Hne Hn;
    [done|].
  apply Forall_cons in Hve as [Hvx Hve].
  pose proof (Hda 1 ltac:(simpl; lia)) as H1. simpl in H1.
  rewrite take_0 in H1. unfold dir_or_absent in H1.
  destruct (f !! (base ++ [x])) as [[| |]|] eqn:E; try done.
  - assert (dirs f [] (base ++ [x])) as Hdx.
    { apply dirs_app; [done|]. by apply dirs_singleton. }
    destruct ext as [|y ext]; [congruence|].
    rewrite (cons_middle x), app_assoc. apply IH; try done.
    + apply Forall_app. split; [done|by apply Forall_singleton].
    + intros k Hk. rewrite <- app_assoc. apply (Hda (S k)). simpl in *. lia.
    + by rewrite <- app_assoc.
  - destruct ext as [|y ext].
    + by apply stat_child_absent.
    + apply stat_below_absent; try done. by apply Forall_cons.
Qed.

Lemma makedirs_chain base ext :
  valid base -> dirs f [] base -> valid ext ->
  (∀ k, (0 < k ≤ length ext)%nat -> dir_or_absent f (base ++ take k ext) = true) ->
  (∀ k, (0 < k ≤ length ext)%nat -> refuse Creating (base ++ take k ext) = None) ->
  makedirs_rev refuse f (rev (base ++ ext))
  = (Ok tt, add_dirs f base ext (length ext)).
Proof.
  intros Hvb Hdb. induction ext as [|x ext IH] using rev_ind; intros Hve Hda Hok.
  - rewrite app_nil_r. by apply makedirs_existing.
  - apply Forall_app in Hve as [Hve Hvx]. rewrite Forall_singleton in Hvx.
    assert (∀ k, (0 < k ≤ length ext)%nat ->
                 dir_or_absent f (base ++ take k ext) = true) as Hda'.
    { intros k Hk. rewrite <- (take_app_le ext [x]) by lia. apply Hda.
      rewrite length_app. lia. }
    assert (∀ k, (0 < k ≤ length ext)%nat ->
                 refuse Creating (base ++ take k ext) = None) as Hok'.
    { intros k Hk. rewrite <- (take_app_le ext [x]) by lia. apply Hok.
      rewrite length_app. lia. }
    pose proof (Hok (length (ext ++ [x])) ltac:(rewrite length_app; simpl; lia))
      as Hoklast.
    rewrite firstn_all, app_assoc in Hoklast.
    specialize (IH Hve Hda' Hok').
    assert (valid (base ++ ext)) as Hvh by (by apply Forall_app).
    pose proof (Hda (length (ext ++ [x])) ltac:(rewrite length_app; simpl; lia))
      as Hlast.
    rewrite firstn_all in Hlast.
    rewrite add_dirs_snoc.
    rewrite !app_assoc. rewrite makedirs_rev_snoc.
    assert (dirs f base ext ∨ (ext ≠ [] ∧ f !! (base ++ ext) = None)) as [Hd|[Hne Hn]].
    { destruct ext as [|y ext] using rev_ind.
      - left. apply dirs_nil.
      - pose proof (Hda' (length (ext ++ [y])) ltac:(rewrite length_app; simpl; lia))
          as Hy.
        rewrite firstn_all in Hy. unfold dir_or_absent in Hy.
        destruct (f !! (base ++ ext ++ [y])) as [[| |]|] eqn:E; try done.
        + left. by apply dirs_of_last.
        + right. split; [by destruct ext|done]. }
    + assert (dirs f [] (base ++ ext)) as Hdh by (by apply dirs_app).
      rewrite fs_exists_dir by done.
      rewrite add_dirs_id by (intros k Hk; apply Hd; lia).
      rewrite app_assoc in Hlast. unfold dir_or_absent in Hlast.
      destruct (f !! ((base ++ ext) ++ [x])) as [[| |]|] eqn:E; try done.
      * rewrite (fs_mkdir_child_exists f refuse _ Hvh Hdh x Dir) by done.
        rewrite fs_is_dir_dir.
        -- by rewrite insert_id.
        -- apply Forall_app. split; [done|by apply Forall_singleton].
        -- apply dirs_app; [done|]. by apply dirs_singleton.
      * by rewrite fs_mkdir_child.
    + assert (fs_exists f (base ++ ext) = false) as ->.
      { unfold fs_exists. by rewrite stat_absent_chain. }
      rewrite IH.
      rewrite fs_mkdir_child; try done.
      * apply dirs_app; [by apply dirs_add_dirs|].
        intros k Hk. by apply lookup_add_dirs_chain.
      * rewrite lookup_add_dirs_other; [by apply absent_below; [destruct base, ext|]|].
        intros k Hk E. apply (f_equal length) in E.
        rewrite !length_app, length_take in E. simpl in E. lia.
Qed.

End Makedirs.

(** ** Listing a directory *)

Lemma child_name_spec d k n : child_name d k = Some n ↔ k = d ++ [n].
Proof.
  unfold child_name. split.
  - destruct (drop (length d) k) as [|m [|]] eqn:E; try done.
    destruct (decide (take (length d) k = d)) as [Ht|]; [|done].
    intros [= ->]. by rewrite <- (take_drop (length d) k), E, Ht.
  - intros ->. rewrite drop_app_length, take_app_length.
    by rewrite decide_True.
Qed.

Lemma elem_of_children (f : gmap Path node) d n :
  n ∈ children f d ↔ is_Some (f !! (d ++ [n])).
Proof.
  unfold children. rewrite list_elem_of_omap. split.
  - intros (k & Hk & ->%child_name_spec).
    apply list_elem_of_fmap in Hk as ([k' v] & -> & Hkv).
    apply elem_of_map_to_list in Hkv. by exists v.
  - intros [v Hv]. exists (d ++ [n]). split; [|by apply child_name_spec].
    apply list_elem_of_fmap. exists (d ++ [n], v). split; [done|].
    by apply elem_of_map_to_list.
Qed.

Lemma NoDup_omap_inj {A B} (g : A -> option B) (l : list A) :
  (∀ x y z, g x = Some z -> g y = Some z -> x = y) ->
  NoDup l -> NoDup (omap g l).
Proof.
  intros Hinj. induction 1 as [|x l Hx Hl IH]; simpl; [constructor|].
  destruct (g x) as [z|] eqn:E; [|done].
  constructor; [|done]. rewrite list_elem_of_omap. intros (y & Hy & Hgy).
  by rewrite (Hinj x y z E Hgy) in Hx.
Qed.

Lemma NoDup_children (f : gmap Path node) d : NoDup (children f d).
Proof.
  unfold children. apply NoDup_omap_inj; [|apply NoDup_fst_map_to_list].
  intros x y z ->%child_name_spec ->%child_name_spec. done.
Qed.

(** ** The loop over the entries *)

Lemma lookup_link_entries_in f base D l n :
  (n ∈ l ∧ n ≠ "collections") ∨ f !! (D ++ [n]) = Some (Link (base ++ [n])) ->
  link_entries f base D l !! (D ++ [n]) = Some (Link (base ++ [n])).
Proof.
  revert f. induction l as [|x l IH]; intros f H; simpl.
  - destruct H as [[H _]|H]; [by apply elem_of_nil in H|done].
  - apply IH. destruct (decide (n = x)) as [->|Hne].
    + destruct (String.eqb_spec x "collections") as [->|Hx].
      * destruct H as [[_ H]|H]; [done|by right].
      * right. by rewrite lookup_insert_eq.
    + destruct H as [[H Hc]|H].
      * left. apply elem_of_cons in H as [?|?]; done.
      * right. destruct (String.eqb x "collections"); [done|].
        rewrite lookup_insert_ne; [done|]. intros E. by simplify_list_eq.
Qed.

Lemma lookup_link_entries_other f base D l q :
  (∀ n, n ∈ l -> n ≠ "collections" -> q ≠ D ++ [n]) ->
  link_entries f base D l !! q = f !! q.
Proof.
  revert f. induction l as [|x l IH]; intros f H; simpl; [done|].
  rewrite IH by (intros n Hn; apply H; by right).
  destruct (String.eqb_spec x "collections") as [->|Hx]; [done|].
  rewrite lookup_insert_ne; [done|]. intros E. by apply (H x); [left| |].
Qed.

Lemma path_name_snoc (p : Path) n : path_name (p ++ [n]) = n.
Proof. unfold path_name. apply last_last. Qed.

Lemma symlink_loop base D l w :
  valid base -> valid D -> dirs (fs w) [] D -> valid l -> NoDup l ->
  (∀ n, n ∈ l -> fs w !! (D ++ [n]) = None) ->
  (∀ n, n ∈ l -> os_refuses w Creating (D ++ [n]) = None) ->
  for_each (map (fun n => base ++ [n]) l) (link_body D) w
  = (Ok tt, set_fs (link_entries (fs w) base D l) w).
Proof.
  intros Hvb HvD. revert w.
  induction l as [|x l IH]; intros w HdD Hvl Hnd Hfree Hok.
  - by destruct w.
  - apply Forall_cons in Hvl as [Hvx Hvl]. apply NoDup_cons in Hnd as [Hx Hnd].
    simpl. unfold bind at 1. unfold link_body at 1. rewrite path_name_snoc.
    destruct (String.eqb x "collections") eqn:Ex.
    + unfold ret at 1. apply IH; try done.
      * intros n Hn. apply Hfree. by right.
      * intros n Hn. apply Hok. by right.
    + unfold bind, lift, fs_update, disk. rewrite truediv_name by done.
      rewrite (fs_symlink_child _ _ D HvD HdD);
        [|by apply valid_snoc|done|apply Hfree; by left|apply Hok; by left].
      rewrite IH; try done.
      * simpl. apply dirs_insert; [|done]. intros k Hk E. simpl in E.
        apply (f_equal length) in E. rewrite length_app, length_take in E.
        simpl in E. lia.
      * intros n Hn. simpl. rewrite lookup_insert_ne.
        -- apply Hfree. by right.
        -- intros E. apply app_inj_tail in E as [_ ->]. done.
      * intros n Hn. apply Hok. by right.
Qed.

(** ** Well-formed filesystems *)

Lemma wf_fs_spec f k n :
  wf_fs f = true -> f !! k = Some n ->
  valid k ∧ node_at f (removelast k) = Some Dir.
Proof.
  unfold wf_fs. rewrite forallb_forall. intros H Hk.
  specialize (H k). rewrite <- list_elem_of_In in H.
  assert (k ∈ (map_to_list f).*1) as Hin.
  { apply list_elem_of_fmap. exists (k, n). split; [done|].
    by apply elem_of_map_to_list. }
  apply H in Hin as [Hv Hd]%andb_true_iff.
  split.
  - apply Forall_forall. intros s Hs. rewrite forallb_forall in Hv.
    apply Hv. by apply list_elem_of_In.
  - destruct (node_at f (removelast k)) as [[| |]|]; done.
Qed.

Lemma wf_fs_orphan_free f : wf_fs f = true -> orphan_free f.
Proof.
  intros Hwf q c [n Hn]. destruct (wf_fs_spec f _ n Hwf Hn) as [_ H].
  by rewrite removelast_last in H.
Qed.

Lemma wf_fs_child_valid f p n :
  wf_fs f = true -> is_Some (f !! (p ++ [n])) -> valid_name n = true.
Proof.
  intros Hwf [v Hv]. destruct (wf_fs_spec f _ v Hwf Hv) as [H _].
  apply Forall_app in H as [_ H]. by rewrite Forall_singleton in H.
Qed.

Lemma plain_dir_spec f p : plain_dir f p = true -> valid p ∧ dirs f [] p.
Proof.
  unfold plain_dir. intros [Hv Hd]%andb_true_iff. split.
  - apply Forall_forall. intros s Hs. rewrite forallb_forall in Hv.
    apply Hv. by apply list_elem_of_In.
  - intros k Hk. rewrite forallb_forall in Hd. specialize (Hd k).
    rewrite in_seq in Hd. simpl.
    destruct (f !! take k p) as [[| |]|]; try done; discriminate Hd; lia.
Qed.

(** In a directory without a [galaxy.yml] entry the metadata file is
    missing. *)
Lemma galaxy_missing_absent (f : gmap Path node) (start_path : Path) :
  plain_dir f start_path = true ->
  f !! (start_path ++ ["galaxy.yml"]) = None ->
  galaxy_missing f start_path.
Proof.
  intros [Hv Hd]%plain_dir_spec Hnone. unfold galaxy_missing.
  by apply stat_child_absent.
Qed.

(** ** Making the tree *)

Section Synthesis.

Variables (base : Path) (ns nm : string).
Hypothesis Hout : in_tree base ns nm = false.
Hypothesis Hns : valid_name ns = true.
Hypothesis Hnm : valid_name nm = true.

Let chain := collection_chain ns nm.
Let D := base ++ chain.

Lemma valid_chain : valid chain.
Proof. repeat constructor; done. Qed.

Lemma name_dir_eq :
  (((base ++ ["collections"]) ++ ["ansible_collections"]) ++ [ns]) ++ [nm] = D.
Proof. unfold D, chain, collection_chain. by rewrite <- !app_assoc. Qed.


Variable w : World.
Hypothesis Hwf : wf_fs (fs w) = true.
Hypothesis Hbase : plain_dir (fs w) base = true.
Hypothesis Hfree : tree_free (fs w) base ns nm = true.
Hypothesis Hpermitted : tree_permitted w base.

Let f1 := add_dirs (fs w) base chain 4.
Let f2 := link_entries f1 base D (children f1 base).

Lemma free_chain k :
  (0 < k ≤ 4)%nat -> dir_or_absent (fs w) (base ++ take k chain) = true.
Proof.
  intros Hk. unfold tree_free in Hfree. simpl in Hfree.
  apply andb_true_iff in Hfree as [H123 H4].
  apply andb_true_iff in H123 as [H1 H23].
  apply andb_true_iff in H23 as [H2 H3].
  apply andb_true_iff in H3 as [H3 _].
  destruct k as [|[|[|[|[|k]]]]]; try lia; try done.
  unfold is_absent in H4. unfold dir_or_absent. simpl.
  fold (collection_chain ns nm).
  by destruct (fs w !! (base ++ collection_chain ns nm)).
Qed.

Lemma name_dir_absent : fs w !! D = None.
Proof.
  unfold tree_free in Hfree. apply andb_true_iff in Hfree as [_ H4].
  unfold is_absent in H4. unfold D, chain.
  by destruct (fs w !! (base ++ collection_chain ns nm)).
Qed.

Lemma name_dir_nonempty : D ≠ [].
Proof. unfold D, chain, collection_chain. by destruct base. Qed.

Lemma dirs_f1_name_dir : dirs f1 [] D.
Proof.
  destruct (plain_dir_spec _ _ Hbase) as [Hvb Hdb].
  apply dirs_app; [by apply dirs_add_dirs|].
  intros k Hk. by apply lookup_add_dirs_chain.
Qed.

Lemma valid_name_dir : valid D.
Proof.
  destruct (plain_dir_spec _ _ Hbase) as [Hvb Hdb].
  apply Forall_app. split; [done|apply valid_chain].
Qed.

Lemma f1_below_name_dir n : f1 !! (D ++ [n]) = None.
Proof.
  unfold f1. rewrite lookup_add_dirs_other.
  - apply absent_below; [by apply wf_fs_orphan_free|apply name_dir_nonempty
                        |apply name_dir_absent].
  - intros k Hk E. apply (f_equal length) in E. unfold D in E.
    rewrite !length_app, length_take in E. simpl in E. lia.
Qed.

Lemma f1_children n :
  n ∈ children f1 base ↔ n = "collections" ∨ is_Some (fs w !! (base ++ [n])).
Proof.
  rewrite elem_of_children. unfold f1.
  destruct (decide (n = "collections")) as [->|Hn].
  - split; [by left|]. intros _.
    rewrite (lookup_add_dirs_chain _ base chain 4 1) by lia. done.
  - rewrite lookup_add_dirs_other; [split; [by right|by intros [?|?]]|].
    intros k Hk E. apply app_inv_head in E.
    destruct k as [|[|[|[|[|k]]]]]; try lia; simplify_eq/=.
Qed.

Lemma valid_children : valid (children f1 base).
Proof.
  apply Forall_forall. intros n [->|Hn]%f1_children; [done|].
  by eapply wf_fs_child_valid.
Qed.

Lemma ensure_tree_first_run :
  ensure_tree base (VStr ns) (VStr nm) w
  = (Ok (base ++ ["collections"]),
     set_fs f2 (set_log ((logging_INFO, "Not in collection tree") :: log w) w)).
Proof.
  destruct (plain_dir_spec _ _ Hbase) as [Hvb Hdb].
  unfold ensure_tree. fold (in_tree base ns nm). rewrite Hout.
  unfold bind at 1. unfold logger_info, logger_log.
  unfold bind at 1. unfold lift at 1. rewrite truediv_name by done.
  unfold bind at 1. unfold lift at 1. rewrite truediv_name by done.
  unfold bind at 1. unfold lift at 1. rewrite truediv_name by done.
  unfold bind at 1. unfold lift at 1. rewrite truediv_name by done.
  rewrite name_dir_eq.
  unfold bind at 1. unfold fs_query at 1. simpl fs.
  assert (fs_is_dir (fs w) D = false) as ->.
  { unfold fs_is_dir, D.
    rewrite stat_absent_chain; try done.
    - apply valid_chain.
    - intros k Hk. by apply free_chain.
    - apply name_dir_absent. }
  simpl negb. cbv iota.
  destruct Hpermitted as [Hlist Hcreate].
  unfold bind at 1. unfold bind at 1. unfold fs_update at 1. unfold disk at 1.
  cbn [fs os_refuses set_log].
  unfold fs_makedirs, D. cbn [nodes refuses].
  rewrite (makedirs_chain _ _ (wf_fs_orphan_free _ Hwf)); try done.
  2: apply valid_chain.
  2: { intros k Hk. by apply free_chain. }
  2: { intros k Hk. apply Hcreate. destruct k as [|k]; [lia|].
       simpl. eexists. by rewrite <- app_assoc. }
  change (add_dirs (fs w) base chain (length chain)) with f1.
  unfold bind at 1. unfold iterdir, bind at 1. unfold fs_ask at 1.
  unfold disk at 1. cbn [fs os_refuses set_fs set_log].
  rewrite fs_listdir_dir; [|done|by apply dirs_add_dirs|done].
  unfold ret at 1.
  change (for_each ?l _) with (for_each l (link_body D)).
  rewrite symlink_loop.
  - reflexivity.
  - done.
  - apply valid_name_dir.
  - apply dirs_f1_name_dir.
  - apply valid_children.
  - apply NoDup_children.
  - intros n _. apply f1_below_name_dir.
  - intros n _. cbn [os_refuses set_fs set_log]. apply Hcreate.
    unfold D, chain, collection_chain. eexists. by rewrite <- !app_assoc.
Qed.

End Synthesis.




(** ** From the dependency checks to the publication *)

(** With both dependencies installed and a resolved identity, [inject] past
    its option check is the tree step followed by the publication. *)
Lemma inject_collection_publishes
    (host : Host) (start_path : Path) (w w1 w2 : World)
    (namespace name : PyVal) (d : Path) :
  ansible_installed host = true ->
  yaml_installed host = true ->
  get_collection_name host start_path
    (set_log ((logging_DEBUG, "Start path: %s") :: log w) w)
    = (Ok (namespace, name), w1) ->
  is_none namespace = false ->
  is_none name = false ->
  ensure_tree start_path namespace name w1 = (Ok d, w2) ->
  inject_collection host start_path w = publish host d w2.
Proof.
  intros Hansible Hyaml Hid Hns Hnm Htree.
  unfold inject_collection, bind.
  rewrite load_name_HAS_ANSIBLE, Hansible. simpl.
  rewrite load_name_HAS_YAML, Hyaml. simpl.
  unfold logger_debug, logger_log. rewrite Hid, Hns, Hnm. simpl.
  by rewrite Htree.
Qed.

(** A run on a fresh checkout: the tree is made, its directory heads
    [sys.path] and the variable, and the finder gets the two paths. *)
Example inject_collection_fresh_checkout :
  let w := world_of (fs_repo "{namespace: foo, name: bar}") ∅ in
  let r := inject_collection host_full ["repo"] w in
  r.1 = Ok tt
  ∧ sys_path r.2 = ["/repo/collections"; "/usr/lib/python3"]
  ∧ environ r.2 !! "ANSIBLE_COLLECTIONS_PATHS"
    = Some "/repo/collections:~/.ansible/collections"
  ∧ finders r.2 = [VList [VStr "/repo/collections"; VStr "~/.ansible/collections"]]
  ∧ fs r.2 !! ["repo"; "collections"; "ansible_collections"; "foo"; "bar"; "plugins"]
    = Some (Link ["repo"; "plugins"]).
Proof. vm_compute. repeat split. Qed.

(** A run inside an installed collection: nothing is created. *)
Example inject_collection_installed :
  let start_path := ["work"; "collections"; "ansible_collections"; "foo"; "bar"] in
  let r := inject_collection host_no_finder start_path (world_of fs_installed ∅) in
  r.1 = Ok tt
  ∧ map_to_list (fs r.2) = map_to_list fs_installed
  ∧ sys_path r.2 = ["/work/collections"; "/usr/lib/python3"]
  ∧ finders r.2 = [].
Proof. vm_compute. repeat split. Qed.

(** * Further properties *)

(** ** More on the collection identity *)

Section IdentityMore.

Variable host : Host.

Lemma load_name_yaml_missing w :
  yaml_installed host = false ->
  load_name host "yaml" w = (Raise (NameError "yaml"), w).
Proof.
  destruct host as [[] [] [] sep load]; simpl; intros; try discriminate; reflexivity.
Qed.

End IdentityMore.

(** X1: a metadata file that parses to a mapping with both keys gives
    exactly the two values stored under them, and only the log changes. *)
Theorem get_collection_name_resolved
    (host : Host) (start_path : Path) (w : World) (text : string)
    (items : list (PyVal * PyVal)) (namespace name : PyVal) :
  fs_read (fs w) (start_path ++ ["galaxy.yml"]) = Ok text ->
  yaml_installed host = true ->
  yaml_safe_load host text = Ok (VDict items) ->
  dict_get "namespace" items = Ok namespace ->
  dict_get "name" items = Ok name ->
  ∃ w', get_collection_name host start_path w = (Ok (namespace, name), w')
        ∧ same_state w w'.
Proof.
  intros Hread Hyaml Hload Hns Hnm.
  unfold get_collection_name, bind, lift, try_except, fs_query.
  rewrite truediv_galaxy. simpl. rewrite Hread.
  rewrite load_name_yaml by done. rewrite Hload. simpl.
  rewrite Hns, Hnm. simpl.
  eexists. split; [reflexivity|]. by repeat split.
Qed.

(** X2: called where pyyaml is missing, on a metadata file that exists,
    [get_collection_name] raises [NameError] for the name [yaml]: the file
    is opened before the loader is looked up. *)
Theorem get_collection_name_without_yaml
    (host : Host) (start_path : Path) (w : World) (text : string) :
  fs_read (fs w) (start_path ++ ["galaxy.yml"]) = Ok text ->
  yaml_installed host = false ->
  ∃ w', get_collection_name host start_path w = (Raise (NameError "yaml"), w')
        ∧ same_state w w'.
Proof.
  intros Hread Hyaml.
  unfold get_collection_name, bind, lift, try_except, fs_query.
  rewrite truediv_galaxy. simpl. rewrite Hread.
  rewrite load_name_yaml_missing by done. simpl.
  eexists. split; [reflexivity|]. by repeat split.
Qed.

(** X3: any error of opening the metadata file other than
    [FileNotFoundError], and any such error of the loader, leaves
    [get_collection_name] uncaught. *)
Theorem get_collection_name_propagates
    (host : Host) (start_path : Path) (w : World) (e : exn) :
  fs_read (fs w) (start_path ++ ["galaxy.yml"]) = Raise e
  ∨ (∃ text, fs_read (fs w) (start_path ++ ["galaxy.yml"]) = Ok text
             ∧ yaml_installed host = true
             ∧ yaml_safe_load host text = Raise e) ->
  e ≠ FileNotFoundError ->
  ∃ w', get_collection_name host start_path w = (Raise e, w')
        ∧ same_state w w'.
Proof.
  intros H He.
  unfold get_collection_name, bind, lift, try_except, fs_query.
  rewrite truediv_galaxy. simpl.
  destruct H as [Hread|(text & Hread & Hyaml & Hload)]; rewrite Hread.
  - rewrite decide_False by done.
    eexists. split; [reflexivity|]. by repeat split.
  - rewrite load_name_yaml by done. rewrite Hload.
    rewrite decide_False by done.
    eexists. split; [reflexivity|]. by repeat split.
Qed.

(** X4: whatever it finds and however it ends, [get_collection_name]
    changes nothing but the log. *)
Theorem get_collection_name_only_logs (host : Host) (start_path : Path) (w : World) :
  same_state w (get_collection_name host start_path w).2.
Proof.
  unfold get_collection_name, bind, lift, try_except, fs_query.
  rewrite truediv_galaxy. simpl.
  destruct (fs_read (fs w) (start_path ++ ["galaxy.yml"])) as [text|e].
  - destruct (yaml_installed host) eqn:Hyaml.
    + rewrite load_name_yaml by done.
      destruct (yaml_safe_load host text) as [v|e].
      * simpl. destruct (subscript v "namespace") as [ns|e1]; simpl.
        -- destruct (subscript v "name") as [nm|e2]; simpl.
           ++ by repeat split.
           ++ destruct (decide (e2 = KeyError)); by repeat split.
        -- destruct (decide (e1 = KeyError)); by repeat split.
      * destruct (decide (e = FileNotFoundError)); by repeat split.
    + rewrite load_name_yaml_missing by done. simpl. by repeat split.
  - destruct (decide (e = FileNotFoundError)); by repeat split.
Qed.

(** ** [inject_only] in general *)

(** X5: [inject_only] always returns; the non-empty pieces of the
    variable stand in front of [sys.path] in reverse order, the filesystem
    and the environment are untouched, and the finder, when importable, is
    given the text of the variable. *)
Theorem inject_only_effect (host : Host) (w : World) :
  let env_paths := default "" (environ w !! "ANSIBLE_COLLECTIONS_PATHS") in
  ∃ w', inject_only host w = (Ok tt, w')
        ∧ sys_path w'
          = rev (filter (fun s => s ≠ "") (split_on (os_pathsep host) env_paths))
            ++ sys_path w
        ∧ fs w' = fs w
        ∧ environ w' = environ w
        ∧ finders w'
          = (if collection_finder_importable host then [VStr env_paths] else [])
            ++ finders w.
Proof.
  intros env_paths. eexists. split; [apply inject_only_spec|].
  rewrite with_finder_sys_path, with_finder_fs, with_finder_environ.
  fold env_paths. split_and!; try reflexivity.
  unfold with_finder. by destruct (collection_finder_importable host).
Qed.

(** X6: with the variable unset or empty, [inject_only] leaves
    [sys.path] as it was. *)
Theorem inject_only_without_paths (host : Host) (w : World) :
  environ w !! "ANSIBLE_COLLECTIONS_PATHS" = None
  ∨ environ w !! "ANSIBLE_COLLECTIONS_PATHS" = Some "" ->
  ∃ w', inject_only host w = (Ok tt, w')
        ∧ sys_path w' = sys_path w
        ∧ fs w' = fs w
        ∧ environ w' = environ w.
Proof.
  intros H. eexists. split; [apply inject_only_spec|].
  rewrite with_finder_sys_path, with_finder_fs, with_finder_environ.
  split_and!; try reflexivity.
  destruct H as [-> | ->]; reflexivity.
Qed.

(** ** The publication, framed and repeated *)

(** X7: the publication touches no file, keeps every other variable of
    the environment and every prior entry of [sys.path], and hands the
    finder, when importable, the list of the two paths. *)
Theorem publish_frame (host : Host) (d : Path) (w : World) :
  ∃ w', publish host d w = (Ok tt, w')
        ∧ fs w' = fs w
        ∧ sys_path w' = path_str d :: sys_path w
        ∧ (∀ key, key ≠ "ANSIBLE_COLLECTIONS_PATHS" ->
                  environ w' !! key = environ w !! key)
        ∧ finders w'
          = (if collection_finder_importable host
             then [VList [VStr (path_str d); VStr "~/.ansible/collections"]]
             else []) ++ finders w.
Proof.
  destruct (publish_spec host d w) as (w' & Hrun & Hfs & Hpath & Henv & Hfind).
  exists w'. split_and!; try done.
  intros key Hkey. rewrite Henv. by rewrite lookup_insert_ne.
Qed.

(** X8: publishing the same directory twice puts it into [sys.path]
    twice, while the variable is as after the first time. *)
Theorem publish_twice (host : Host) (d : Path) (w : World) :
  ∃ w1 w2, publish host d w = (Ok tt, w1)
           ∧ publish host d w1 = (Ok tt, w2)
           ∧ sys_path w2 = path_str d :: path_str d :: sys_path w
           ∧ environ w2 = environ w1
           ∧ fs w2 = fs w.
Proof.
  destruct (publish_spec host d w) as (w1 & Hrun1 & Hfs1 & Hpath1 & Henv1 & _).
  destruct (publish_spec host d w1) as (w2 & Hrun2 & Hfs2 & Hpath2 & Henv2 & _).
  exists w1, w2. split_and!; try done.
  - by rewrite Hpath2, Hpath1.
  - rewrite Henv2, Henv1. by rewrite insert_insert_eq.
  - by rewrite Hfs2.
Qed.

(** ** The dependency checks *)

(** X9: without ansible, or without pyyaml, [inject] past its option
    check returns having logged one error and read nothing; ansible is
    tested first, so its message wins when both are missing. *)
Theorem inject_collection_missing_dependency
    (host : Host) (start_path : Path) (w : World) :
  ansible_installed host = false ∨ yaml_installed host = false ->
  inject_collection host start_path w
  = (Ok tt,
     set_log
       ((logging_ERROR,
         if ansible_installed host
         then "pyyaml is not installed, plugin not activated"
         else "ansible is not installed, plugin not activated") :: log w) w).
Proof.
  intros H. unfold inject_collection, bind.
  rewrite load_name_HAS_ANSIBLE. simpl.
  destruct (ansible_installed host); simpl; [|reflexivity].
  rewrite load_name_HAS_YAML. simpl.
  destruct H as [?|Hy]; [done|]. by rewrite Hy.
Qed.

(** ** [pytest_configure] *)

Lemma log_map_outside (v : Z) : (v < 0 ∨ 4 < v)%Z -> log_map !! v = None.
Proof.
  intros Hv. unfold log_map. simpl.
  rewrite !lookup_insert_ne by lia. apply lookup_empty.
Qed.

(** X10: a verbosity below 0 or above 4 has no entry in the map, and
    [logging.basicConfig] is called with [level=None]. *)
Theorem pytest_configure_level_outside (host : Host) (config : Config) (w : World) :
  (option_verbose config < 0 ∨ 4 < option_verbose config)%Z ->
  basic_config (pytest_configure host config w).2 = None :: basic_config w.
Proof.
  intros Hv. rewrite pytest_configure_basic_config. by rewrite log_map_outside.
Qed.

(** X11: [pytest_configure] configures logging, logs one record and then
    fails in [inject] with [NameError], for every configuration. *)
Theorem pytest_configure_always_raises (host : Host) (config : Config) (w : World) :
  pytest_configure host config w
  = (Raise (NameError "session"),
     set_log ((logging_DEBUG, "Logging initialized") :: log w)
       (set_basic_config ((log_map !! option_verbose config) :: basic_config w) w)).
Proof.
  unfold pytest_configure, inject, bind, logging_basicConfig, logger_debug,
    logger_log.
  rewrite load_name_session. reflexivity.
Qed.

(** ** From the publication to [inject_only] *)

Lemma split_on_without sep s : has_char sep s = false -> split_on sep s = [s].
Proof.
  induction s as [|c s IH]; simpl; [done|].
  intros [Hc Hs]%orb_false_iff. rewrite Hc, (IH Hs). done.
Qed.

Lemma split_on_joined sep a b :
  has_char sep a = false ->
  split_on sep (a +:+ String sep b) = a :: split_on sep b.
Proof.
  induction a as [|c a IH]; simpl.
  - intros _. by rewrite Ascii.eqb_refl.
  - intros [Hc Ha]%orb_false_iff. rewrite Hc, (IH Ha). done.
Qed.

Lemma concat_pair sep a b :
  String.concat (String sep "") [a; b] = a +:+ String sep b.
Proof. reflexivity. Qed.

(** X12: what the publication writes into the variable, [inject_only]
    reads back as the same two paths (neither holds the separator), and
    puts both in front of [sys.path], the user directory first. *)
Theorem publish_then_inject_only (host : Host) (d : Path) (w : World) :
  has_char (os_pathsep host) (path_str d) = false ->
  has_char (os_pathsep host) "~/.ansible/collections" = false ->
  ∃ w1 w2, publish host d w = (Ok tt, w1)
           ∧ inject_only host w1 = (Ok tt, w2)
           ∧ sys_path w2
             = "~/.ansible/collections" :: path_str d :: path_str d :: sys_path w
           ∧ environ w2 = environ w1
           ∧ fs w2 = fs w.
Proof.
  intros Hd Huser.
  destruct (publish_spec host d w) as (w1 & Hrun1 & Hfs1 & Hpath1 & Henv1 & _).
  exists w1. eexists. split; [done|]. split; [apply inject_only_spec|].
  rewrite with_finder_sys_path, with_finder_fs, with_finder_environ.
  cbn [fs sys_path environ set_log set_sys_path].
  split_and!; try done.
  rewrite Henv1, lookup_insert_eq. cbn [default id]. rewrite concat_pair.
  rewrite split_on_joined by done.
  rewrite split_on_without by done.
  rewrite filter_cons, decide_True by done.
  rewrite Hpath1. reflexivity.
Qed.

(** ** Identities that are not strings *)

Lemma tuple_eq_strs t u : tuple_eq t u = true -> Forall (fun v => is_str v = true) u.
Proof. intros ->%tuple_eq_true. apply Forall_fmap. by apply Forall_true. Qed.

(** X13: when the namespace or the name is not a string, the tree step
    raises [TypeError] on building the path, before touching any file. *)
Theorem ensure_tree_rejects_non_string
    (start_path : Path) (namespace name : PyVal) (w : World) :
  is_str namespace = false ∨ is_str name = false ->
  ∃ w', ensure_tree start_path namespace name w = (Raise TypeError, w')
        ∧ same_state w w'.
Proof.
  intros H. unfold ensure_tree.
  destruct (tuple_eq _ _) eqn:Heq.
  { apply tuple_eq_strs in Heq.
    apply Forall_cons in Heq as [_ Heq]. apply Forall_cons in Heq as [_ Heq].
    apply Forall_cons in Heq as [Hns Heq]. apply Forall_cons in Heq as [Hnm _].
    destruct H; congruence. }
  unfold bind, logger_info, logger_log, lift.
  change (truediv start_path (VStr "collections"))
    with (Ok (start_path ++ ["collections"])).
  cbv iota beta.
  change (truediv (start_path ++ ["collections"]) (VStr "ansible_collections"))
    with (Ok ((start_path ++ ["collections"]) ++ ["ansible_collections"])).
  cbv iota beta.
  destruct namespace; simpl; try (eexists; split; [reflexivity|by repeat split]).
  destruct name; simpl; try (eexists; split; [reflexivity|by repeat split]).
  destruct H; discriminate.
Qed.

(** ** A file in the way *)

Lemma resolve_from_file links f follow cur c c' rest content :
  valid_name c = true ->
  f !! (cur ++ [c]) = Some (File content) ->
  resolve_from links f follow cur (c :: c' :: rest) = Raise NotADirectoryError.
Proof.
  intros Hc Hd. destruct links; simpl;
    rewrite (valid_not_dotdot c Hc), (valid_name_short c Hc), Hd; reflexivity.
Qed.

Section Blocked.

Variable f : gmap Path node.
Variable refuse : access -> Path -> option refusal.
Variable p : Path.
Hypothesis Hvalid : valid p.
Hypothesis Hdirs : dirs f [] p.
Variables (c : string) (content : string).
Hypothesis Hc : valid_name c = true.
Hypothesis Hfile : f !! (p ++ [c]) = Some (File content).

Lemma resolve_below_file follow c' rest :
  valid (c' :: rest) ->
  resolve f follow (p ++ c :: c' :: rest) = Raise NotADirectoryError.
Proof.
  intros Hv. unfold resolve.
  rewrite valid_no_nul by (apply Forall_app; split; [done|by constructor]).
  rewrite resolve_from_through by done. simpl (_ ++ _).
  by erewrite resolve_from_file by eauto.
Qed.

Lemma stat_below_file c' rest :
  valid (c' :: rest) ->
  stat f (p ++ c :: c' :: rest) = Raise NotADirectoryError.
Proof. intros Hv. unfold stat. by rewrite resolve_below_file. Qed.

Lemma stat_file : stat f (p ++ [c]) = Ok (p ++ [c], File content).
Proof.
  unfold stat. rewrite resolve_child; [|done..|by rewrite Hfile].
  by rewrite node_at_snoc, Hfile.
Qed.

Lemma fs_mkdir_below_file c' rest :
  valid (c' :: rest) ->
  fs_mkdir (mkDisk f refuse) (p ++ c :: c' :: rest) = (Raise NotADirectoryError, f).
Proof.
  intros Hv. unfold fs_mkdir. cbn [nodes]. by rewrite resolve_below_file.
Qed.

Lemma makedirs_below_file c1 c2 c3 :
  valid [c1; c2; c3] ->
  fs_makedirs (mkDisk f refuse) (p ++ [c; c1; c2; c3])
  = (Raise NotADirectoryError, f).
Proof.
  intros Hv. apply Forall_cons in Hv as Hv'. destruct Hv' as [H1 Hv'].
  apply Forall_cons in Hv' as [H2 H3]. rewrite Forall_singleton in H3.
  unfold fs_makedirs. cbn [nodes refuses].
  replace (p ++ [c; c1; c2; c3]) with ((p ++ [c; c1; c2]) ++ [c3])
    by (by rewrite <- app_assoc).
  rewrite makedirs_rev_snoc.
  unfold fs_exists at 1.
  rewrite stat_below_file by (by repeat constructor).
  cbn [is_ok].
  replace (p ++ [c; c1; c2]) with ((p ++ [c; c1]) ++ [c2])
    by (by rewrite <- app_assoc).
  rewrite makedirs_rev_snoc.
  unfold fs_exists at 1.
  rewrite stat_below_file by (by repeat constructor).
  cbn [is_ok].
  replace (p ++ [c; c1]) with ((p ++ [c]) ++ [c1]) by (by rewrite <- app_assoc).
  rewrite makedirs_rev_snoc.
  unfold fs_exists at 1. rewrite stat_file. cbn [is_ok].
  rewrite <- app_assoc. simpl (_ ++ _).
  rewrite fs_mkdir_below_file by (by repeat constructor).
  unfold fs_is_dir. rewrite stat_below_file by (by repeat constructor).
  reflexivity.
Qed.

End Blocked.

(** X14: when [collections] in [start_path] is a regular file, the tree
    step fails with [NotADirectoryError] out of [os.makedirs] and creates
    nothing. *)
Theorem ensure_tree_blocked_by_file
    (start_path : Path) (ns nm content : string) (w : World) :
  in_tree start_path ns nm = false ->
  valid_name ns = true ->
  valid_name nm = true ->
  plain_dir (fs w) start_path = true ->
  fs w !! (start_path ++ ["collections"]) = Some (File content) ->
  ∃ w', ensure_tree start_path (VStr ns) (VStr nm) w
        = (Raise NotADirectoryError, w')
        ∧ same_state w w'.
Proof.
  intros Hout Hns Hnm [Hvb Hdb]%plain_dir_spec Hfile.
  unfold ensure_tree. fold (in_tree start_path ns nm). rewrite Hout.
  unfold bind at 1. unfold logger_info, logger_log.
  unfold bind at 1. unfold lift at 1. rewrite truediv_name by done.
  unfold bind at 1. unfold lift at 1. rewrite truediv_name by done.
  unfold bind at 1. unfold lift at 1. rewrite truediv_name by done.
  unfold bind at 1. unfold lift at 1. rewrite truediv_name by done.
  rewrite <- !app_assoc. simpl (_ ++ _).
  unfold bind at 1. unfold fs_query at 1. cbn [fs set_log].
  unfold fs_is_dir.
  rewrite (stat_below_file _ _ Hvb Hdb _ content)
    by (done || by repeat constructor).
  cbn [negb]. unfold bind at 1. unfold bind at 1. unfold fs_update at 1.
  unfold disk at 1. cbn [fs os_refuses set_log].
  rewrite (makedirs_below_file _ _ _ Hvb Hdb _ content)
    by (done || by repeat constructor).
  eexists. split; [reflexivity|]. by repeat split.
Qed.

(** ** [inject] past its option check, as a whole *)

Lemma get_collection_name_run
    (host : Host) (start_path : Path) (w : World) (text : string)
    (items : list (PyVal * PyVal)) (namespace name : PyVal) :
  fs_read (fs w) (start_path ++ ["galaxy.yml"]) = Ok text ->
  yaml_installed host = true ->
  yaml_safe_load host text = Ok (VDict items) ->
  dict_get "namespace" items = Ok namespace ->
  dict_get "name" items = Ok name ->
  get_collection_name host start_path w
  = (Ok (namespace, name), set_log (identity_log w) w).
Proof.
  intros Hread Hyaml Hload Hns Hnm.
  unfold get_collection_name, bind, lift, try_except, fs_query.
  rewrite truediv_galaxy. simpl. rewrite Hread.
  rewrite load_name_yaml by done. rewrite Hload. simpl.
  rewrite Hns, Hnm. simpl. by destruct w.
Qed.

Lemma get_collection_name_result (host : Host) (p p' : Path) (w w' : World) :
  fs_read (fs w) (p ++ ["galaxy.yml"]) = fs_read (fs w') (p' ++ ["galaxy.yml"]) ->
  (get_collection_name host p w).1 = (get_collection_name host p' w').1.
Proof.
  intros Hread.
  unfold get_collection_name, bind, lift, try_except, fs_query.
  rewrite !truediv_galaxy. simpl. rewrite Hread.
  destruct (fs_read (fs w') (p' ++ ["galaxy.yml"])) as [text|e].
  - destruct (yaml_installed host) eqn:Hyaml.
    + rewrite !load_name_yaml by done.
      destruct (yaml_safe_load host text) as [v|e].
      * simpl. destruct (subscript v "namespace") as [ns|e1]; simpl.
        -- destruct (subscript v "name") as [nm|e2]; simpl; [done|].
           by destruct (decide (e2 = KeyError)).
        -- by destruct (decide (e1 = KeyError)).
      * by destruct (decide (e = FileNotFoundError)).
    + by rewrite !load_name_yaml_missing by done.
  - by destruct (decide (e = FileNotFoundError)).
Qed.

(** X15: a metadata file that has both keys but a null value under one
    of them is treated like a missing one: [inject] past its option check
    returns and only logs. *)
Theorem inject_collection_null_identity
    (host : Host) (start_path : Path) (w : World) (text : string)
    (items : list (PyVal * PyVal)) (namespace name : PyVal) :
  fs_read (fs w) (start_path ++ ["galaxy.yml"]) = Ok text ->
  yaml_installed host = true ->
  yaml_safe_load host text = Ok (VDict items) ->
  dict_get "namespace" items = Ok namespace ->
  dict_get "name" items = Ok name ->
  is_none namespace || is_none name = true ->
  ∃ w', inject_collection host start_path w = (Ok tt, w') ∧ same_state w w'.
Proof.
  intros Hread Hyaml Hload Hns Hnm Hnone.
  unfold inject_collection, bind.
  rewrite load_name_HAS_ANSIBLE. simpl.
  destruct (ansible_installed host); simpl.
  2: { eexists. split; [reflexivity|]. apply same_state_log. }
  rewrite load_name_HAS_YAML, Hyaml. simpl.
  erewrite get_collection_name_run by done. rewrite Hnone.
  eexists. split; [reflexivity|]. by repeat split.
Qed.

(** X16: run from inside a collections tree with both dependencies
    installed, [inject] past its option check returns with the filesystem
    as it was, the directory three levels up at the head of [sys.path] and
    in the variable. *)
Theorem inject_collection_in_tree
    (host : Host) (start_path : Path) (w : World) (text : string)
    (items : list (PyVal * PyVal)) (ns nm : string) :
  ansible_installed host = true ->
  yaml_installed host = true ->
  fs_read (fs w) (start_path ++ ["galaxy.yml"]) = Ok text ->
  yaml_safe_load host text = Ok (VDict items) ->
  dict_get "namespace" items = Ok (VStr ns) ->
  dict_get "name" items = Ok (VStr nm) ->
  last_n 4 (parts start_path) = collection_chain ns nm ->
  let d := take (length start_path - 3) start_path in
  ∃ w', inject_collection host start_path w = (Ok tt, w')
        ∧ fs w' = fs w
        ∧ sys_path w' = path_str d :: sys_path w
        ∧ environ w' !! "ANSIBLE_COLLECTIONS_PATHS"
          = Some (path_str d +:+ String (os_pathsep host) "~/.ansible/collections")
        ∧ start_path = d ++ ["ansible_collections"; ns; nm].
Proof.
  intros Hansible Hyaml Hread Hload Hns Hnm Htree d.
  destruct (in_tree_shape _ _ _ Htree) as (_ & Hshape & _).
  unfold inject_collection, bind.
  rewrite load_name_HAS_ANSIBLE, Hansible. simpl.
  rewrite load_name_HAS_YAML, Hyaml. simpl.
  erewrite get_collection_name_run by done. simpl.
  rewrite ensure_tree_in_tree by (by rewrite Htree).
  match goal with |- context [publish host ?p ?x] =>
    destruct (publish_spec host p x) as (w' & -> & Hfs & Hpath & Henv & _) end.
  exists w'. split_and!; try done.
  rewrite Henv, lookup_insert_eq. by rewrite concat_pair.
Qed.

(** ** The new tree, seen from inside *)

Lemma resolve_from_link links f cur c t :
  valid_name c = true ->
  f !! (cur ++ [c]) = Some (Link t) ->
  resolve_from (S links) f true cur [c] = resolve_from links f true [] t.
Proof.
  intros Hc Hl. simpl.
  rewrite (valid_not_dotdot c Hc), (valid_name_short c Hc), Hl. simpl.
  by rewrite app_nil_r.
Qed.

Lemma chain_is_in_tree (p : Path) (ns nm : string) :
  last_n 4 (parts (p ++ collection_chain ns nm)) = collection_chain ns nm.
Proof.
  unfold last_n, parts, collection_chain.
  change ("/" :: p ++ ?l) with (("/" :: p) ++ l).
  rewrite length_app. simpl length.
  replace (S (length p) + 4 - 4) with (length ("/" :: p)) by (simpl; lia).
  by rewrite drop_app_length.
Qed.

Section Synthesized.

Variables (base : Path) (ns nm : string) (w : World).
Hypothesis Hns : valid_name ns = true.
Hypothesis Hnm : valid_name nm = true.
Hypothesis Hwf : wf_fs (fs w) = true.
Hypothesis Hbase : plain_dir (fs w) base = true.
Hypothesis Hfree : tree_free (fs w) base ns nm = true.

Let chain := collection_chain ns nm.
Let D := base ++ chain.
Let f1 := add_dirs (fs w) base chain 4.
Let f2 := link_entries f1 base D (children f1 base).

Lemma f2_outside_name_dir q :
  (∀ n, q ≠ D ++ [n]) -> f2 !! q = f1 !! q.
Proof. intros Hq. unfold f2. apply lookup_link_entries_other. auto. Qed.

Lemma dirs_f2_name_dir : dirs f2 [] D.
Proof.
  intros k Hk. rewrite f2_outside_name_dir.
  - by apply (dirs_f1_name_dir base ns nm w Hbase).
  - intros n E. apply (f_equal length) in E. simpl in E.
    rewrite length_take, length_app in E. simpl in E. lia.
Qed.

Lemma dirs_f2_base : dirs f2 [] base.
Proof. eapply dirs_app_l. apply dirs_f2_name_dir. Qed.

Lemma f2_entry n :
  n ≠ "collections" -> f2 !! (base ++ [n]) = fs w !! (base ++ [n]).
Proof.
  intros Hn. rewrite f2_outside_name_dir.
  - unfold f1. apply lookup_add_dirs_other. intros k Hk E.
    apply app_inv_head in E.
    destruct k as [|[|[|[|[|k]]]]]; try lia; simplify_eq/=.
  - intros m E. apply (f_equal length) in E. unfold D in E.
    rewrite !length_app in E. simpl in E. lia.
Qed.

Lemma f2_link n :
  is_Some (fs w !! (base ++ [n])) -> n ≠ "collections" ->
  f2 !! (D ++ [n]) = Some (Link (base ++ [n])).
Proof.
  intros Hin Hn. unfold f2. apply lookup_link_entries_in. left.
  split; [|done]. apply (f1_children base ns nm w). by right.
Qed.

Lemma fs_read_through_link n text :
  valid_name n = true -> n ≠ "collections" ->
  fs w !! (base ++ [n]) = Some (File text) ->
  fs_read f2 (D ++ [n]) = Ok text.
Proof.
  intros Hvn Hn Hfile.
  destruct (plain_dir_spec _ _ Hbase) as [Hvb Hdb].
  assert (f2 !! (base ++ [n]) = Some (File text)) as Hfile2
    by (by rewrite f2_entry).
  assert (valid D) as HvD by (by apply (valid_name_dir base ns nm Hns Hnm w)).
  unfold fs_read, stat, resolve.
  rewrite valid_no_nul by (by apply valid_snoc).
  rewrite resolve_from_through; [|done|apply dirs_f2_name_dir].
  change MAXSYMLINKS with (S 39). simpl ([] ++ D).
  rewrite (resolve_from_link 39 f2 D n (base ++ [n]));
    [|done|by apply f2_link; [rewrite Hfile|]].
  rewrite resolve_from_below; try done.
  - simpl ([] ++ _). by rewrite node_at_snoc, Hfile2.
  - apply dirs_f2_base.
  - simpl ([] ++ _). intros t. by rewrite Hfile2.
Qed.

End Synthesized.

(** X17: after a first run that nothing hinders (file names as namespace
    and name, a well-formed filesystem with nothing in the way, nothing
    refused by the operating system) the metadata file is readable through its link in the new
    tree and gives the same identity there, and a run started from inside
    the new tree finds itself in a collections tree with the same
    collections directory. *)
Theorem synthesized_tree_reads_as_collection
    (host : Host) (start_path : Path) (ns nm text : string) (w : World) :
  in_tree start_path ns nm = false ->
  valid_name ns = true ->
  valid_name nm = true ->
  wf_fs (fs w) = true ->
  plain_dir (fs w) start_path = true ->
  tree_free (fs w) start_path ns nm = true ->
  tree_permitted w start_path ->
  fs w !! (start_path ++ ["galaxy.yml"]) = Some (File text) ->
  let name_dir := start_path ++ collection_chain ns nm in
  let w' := (ensure_tree start_path (VStr ns) (VStr nm) w).2 in
  fs_read (fs w') (name_dir ++ ["galaxy.yml"]) = Ok text
  ∧ (get_collection_name host name_dir w').1
    = (get_collection_name host start_path w).1
  ∧ ∃ w'', ensure_tree name_dir (VStr ns) (VStr nm) w'
           = (Ok (start_path ++ ["collections"]), w'')
           ∧ same_state w' w''.
Proof.
  intros Hout Hns Hnm Hwf Hbase Hfree Hpermitted Hfile name_dir w'.
  destruct (plain_dir_spec _ _ Hbase) as [Hvb Hdb].
  assert (fs_read (fs w') (name_dir ++ ["galaxy.yml"]) = Ok text) as Hread'.
  { unfold w'. rewrite ensure_tree_first_run by done. cbn [snd fs set_fs].
    by apply fs_read_through_link. }
  assert (fs_read (fs w) (start_path ++ ["galaxy.yml"]) = Ok text) as Hread.
  { unfold fs_read. by rewrite (stat_file _ _ Hvb Hdb _ text). }
  split_and!.
  - exact Hread'.
  - apply get_collection_name_result. by rewrite Hread, Hread'.
  - rewrite ensure_tree_in_tree
      by (unfold name_dir; by rewrite chain_is_in_tree).
    unfold name_dir, collection_chain. rewrite take_all_but_three.
    eexists. split; [reflexivity|]. apply same_state_log.
Qed.

(** X18: run from a fresh checkout with both dependencies installed, a
    namespace and a name that are file names, a well-formed filesystem
    with nothing in the way and nothing refused by the operating system,
    [inject] past its
    option check returns; the filesystem is the one the tree step leaves,
    with the collection directory in place, and [start_path/collections]
    heads [sys.path] and the variable. *)
Theorem inject_collection_fresh_tree
    (host : Host) (start_path : Path) (w : World) (text : string)
    (items : list (PyVal * PyVal)) (ns nm : string) :
  ansible_installed host = true ->
  yaml_installed host = true ->
  fs_read (fs w) (start_path ++ ["galaxy.yml"]) = Ok text ->
  yaml_safe_load host text = Ok (VDict items) ->
  dict_get "namespace" items = Ok (VStr ns) ->
  dict_get "name" items = Ok (VStr nm) ->
  in_tree start_path ns nm = false ->
  valid_name ns = true ->
  valid_name nm = true ->
  wf_fs (fs w) = true ->
  plain_dir (fs w) start_path = true ->
  tree_free (fs w) start_path ns nm = true ->
  tree_permitted w start_path ->
  let d := start_path ++ ["collections"] in
  ∃ w', inject_collection host start_path w = (Ok tt, w')
        ∧ fs w' = fs (ensure_tree start_path (VStr ns) (VStr nm) w).2
        ∧ fs_is_dir (fs w') (start_path ++ collection_chain ns nm) = true
        ∧ sys_path w' = path_str d :: sys_path w
        ∧ environ w' !! "ANSIBLE_COLLECTIONS_PATHS"
          = Some (path_str d +:+ String (os_pathsep host) "~/.ansible/collections")
        ∧ finders w'
          = (if collection_finder_importable host
             then [VList [VStr (path_str d); VStr "~/.ansible/collections"]]
             else []) ++ finders w.
Proof.
  intros Hansible Hyaml Hread Hload Hdns Hdnm Hout Hns Hnm Hwf Hbase Hfree
    Hpermitted d.
  unfold inject_collection, bind.
  rewrite load_name_HAS_ANSIBLE, Hansible. simpl.
  rewrite load_name_HAS_YAML, Hyaml. simpl.
  erewrite get_collection_name_run by done. simpl.
  match goal with |- context [ensure_tree _ _ _ ?x] =>
    rewrite (ensure_tree_first_run start_path ns nm Hout Hns Hnm x Hwf Hbase
               Hfree Hpermitted)
  end.
  match goal with |- context [publish host ?p ?x] =>
    destruct (publish_spec host p x) as (w' & -> & Hfs & Hpath & Henv & Hfind) end.
  exists w'. split_and!; try done.
  - rewrite Hfs. by rewrite ensure_tree_first_run.
  - rewrite Hfs. cbn [fs set_fs]. apply fs_is_dir_dir.
    + by apply (valid_name_dir start_path ns nm Hns Hnm w).
    + by apply dirs_f2_name_dir.
  - rewrite Henv, lookup_insert_eq. by rewrite concat_pair.
Qed.

Lemma get_collection_name_resolved_witness :
  ∃ w', get_collection_name host_full ["repo"] world_repo
        = (Ok (VStr "foo", VStr "bar"), w')
        ∧ same_state world_repo w'.
Proof.
  apply (get_collection_name_resolved host_full ["repo"] world_repo
           galaxy_foo_bar items_foo_bar); reflexivity.
Defined.

Lemma get_collection_name_without_yaml_witness :
  ∃ w', get_collection_name host_bare ["repo"] world_repo
        = (Raise (NameError "yaml"), w')
        ∧ same_state world_repo w'.
Proof.
  apply (get_collection_name_without_yaml host_bare ["repo"] world_repo
           galaxy_foo_bar); reflexivity.
Defined.

Lemma get_collection_name_propagates_witness :
  ∃ w', get_collection_name host_full ["repo"] (world_of (fs_repo "{") ∅)
        = (Raise YAMLError, w')
        ∧ same_state (world_of (fs_repo "{") ∅) w'.
Proof.
  apply (get_collection_name_propagates host_full ["repo"]
           (world_of (fs_repo "{") ∅) YAMLError).
  - right. exists "{". repeat split.
  - discriminate.
Defined.

Lemma inject_only_without_paths_witness :
  ∃ w', inject_only host_full (world_of ∅ ∅) = (Ok tt, w')
        ∧ sys_path w' = sys_path (world_of ∅ ∅)
        ∧ fs w' = fs (world_of ∅ ∅)
        ∧ environ w' = environ (world_of ∅ ∅).
Proof.
  apply (inject_only_without_paths host_full (world_of ∅ ∅)).
  left. reflexivity.
Defined.

Lemma inject_collection_missing_dependency_witness :
  inject_collection host_bare ["repo"] world_repo
  = (Ok tt,
     set_log
       ((logging_ERROR,
         if ansible_installed host_bare
         then "pyyaml is not installed, plugin not activated"
         else "ansible is not installed, plugin not activated")
        :: log world_repo) world_repo).
Proof.
  apply (inject_collection_missing_dependency host_bare ["repo"] world_repo).
  left. reflexivity.
Defined.

Lemma pytest_configure_level_outside_witness :
  basic_config (pytest_configure host_full (mkConfig (-1) ["repo"]) world_repo).2
  = None :: basic_config world_repo.
Proof.
  apply (pytest_configure_level_outside host_full (mkConfig (-1) ["repo"])
           world_repo).
  simpl. lia.
Defined.

Lemma publish_then_inject_only_witness :
  ∃ w1 w2, publish host_full ["repo"; "collections"] world_repo = (Ok tt, w1)
           ∧ inject_only host_full w1 = (Ok tt, w2)
           ∧ sys_path w2
             = "~/.ansible/collections" :: path_str ["repo"; "collections"]
               :: path_str ["repo"; "collections"] :: sys_path world_repo
           ∧ environ w2 = environ w1
           ∧ fs w2 = fs world_repo.
Proof.
  apply (publish_then_inject_only host_full ["repo"; "collections"] world_repo);
    reflexivity.
Defined.

Lemma ensure_tree_rejects_non_string_witness :
  ∃ w', ensure_tree ["repo"] (VInt 1) (VStr "bar") world_repo
        = (Raise TypeError, w')
        ∧ same_state world_repo w'.
Proof.
  apply (ensure_tree_rejects_non_string ["repo"] (VInt 1) (VStr "bar") world_repo).
  left. reflexivity.
Defined.

Lemma ensure_tree_blocked_by_file_witness :
  ∃ w', ensure_tree ["repo"] (VStr "foo") (VStr "bar") (world_of fs_blocked ∅)
        = (Raise NotADirectoryError, w')
        ∧ same_state (world_of fs_blocked ∅) w'.
Proof.
  apply (ensure_tree_blocked_by_file ["repo"] "foo" "bar" "notes"
           (world_of fs_blocked ∅)); reflexivity.
Defined.

Lemma inject_collection_null_identity_witness :
  ∃ w', inject_collection host_null_namespace ["repo"] world_repo = (Ok tt, w')
        ∧ same_state world_repo w'.
Proof.
  apply (inject_collection_null_identity host_null_namespace ["repo"] world_repo
           galaxy_foo_bar
           [(VStr "namespace", VNone); (VStr "name", VStr "bar")]
           VNone (VStr "bar")); reflexivity.
Defined.

Lemma inject_collection_in_tree_witness :
  let start_path := ["work"; "collections"; "ansible_collections"; "foo"; "bar"] in
  let w := world_of fs_installed ∅ in
  let d := take (length start_path - 3) start_path in
  ∃ w', inject_collection host_full start_path w = (Ok tt, w')
        ∧ fs w' = fs w
        ∧ sys_path w' = path_str d :: sys_path w
        ∧ environ w' !! "ANSIBLE_COLLECTIONS_PATHS"
          = Some (path_str d +:+ String (os_pathsep host_full) "~/.ansible/collections")
        ∧ start_path = d ++ ["ansible_collections"; "foo"; "bar"].
Proof.
  apply (inject_collection_in_tree host_full
           ["work"; "collections"; "ansible_collections"; "foo"; "bar"]
           (world_of fs_installed ∅) galaxy_foo_bar items_foo_bar "foo" "bar");
    reflexivity.
Defined.

Lemma synthesized_tree_reads_as_collection_witness :
  let name_dir := ["repo"] ++ collection_chain "foo" "bar" in
  let w' := (ensure_tree ["repo"] (VStr "foo") (VStr "bar") world_repo).2 in
  fs_read (fs w') (name_dir ++ ["galaxy.yml"]) = Ok galaxy_foo_bar
  ∧ (get_collection_name host_full name_dir w').1
    = (get_collection_name host_full ["repo"] world_repo).1
  ∧ ∃ w'', ensure_tree name_dir (VStr "foo") (VStr "bar") w'
           = (Ok (["repo"] ++ ["collections"]), w'')
           ∧ same_state w' w''.
Proof.
  apply (synthesized_tree_reads_as_collection host_full ["repo"] "foo" "bar"
           galaxy_foo_bar world_repo); try reflexivity.
  split; [reflexivity|intros q _; reflexivity].
Defined.

Lemma inject_collection_fresh_tree_witness :
  let d := ["repo"] ++ ["collections"] in
  ∃ w', inject_collection host_full ["repo"] world_repo = (Ok tt, w')
        ∧ fs w' = fs (ensure_tree ["repo"] (VStr "foo") (VStr "bar") world_repo).2
        ∧ fs_is_dir (fs w') (["repo"] ++ collection_chain "foo" "bar") = true
        ∧ sys_path w' = path_str d :: sys_path world_repo
        ∧ environ w' !! "ANSIBLE_COLLECTIONS_PATHS"
          = Some (path_str d +:+ String (os_pathsep host_full) "~/.ansible/collections")
        ∧ finders w'
          = (if collection_finder_importable host_full
             then [VList [VStr (path_str d); VStr "~/.ansible/collections"]]
             else []) ++ finders world_repo.
Proof.
  apply (inject_collection_fresh_tree host_full ["repo"] world_repo
           galaxy_foo_bar items_foo_bar "foo" "bar"); try reflexivity.
  split; [reflexivity|intros q _; reflexivity].
Defined.


(** ** Names the operating system refuses *)

(** A namespace of 256 letters is no file name: the tree step makes
    [collections] and [ansible_collections], fails on the third directory
    with [ENAMETOOLONG], and leaves the two it made. *)
Example ensure_tree_name_too_long :
  let r := ensure_tree ["repo"] (VStr (letters 256)) (VStr "bar") world_repo in
  valid_name (letters 256) = false
  ∧ r.1 = Raise (OSError ENAMETOOLONG)
  ∧ fs r.2 !! ["repo"; "collections"; "ansible_collections"] = Some Dir
  ∧ fs r.2 !! ["repo"; "collections"; "ansible_collections"; letters 256] = None.
Proof. vm_compute. repeat split. Qed.

(** When [start_path] cannot be listed the directories are made, the
    listing raises [PermissionError], and no link is made. *)
Example ensure_tree_unlistable :
  let r := ensure_tree ["repo"] (VStr "foo") (VStr "bar") world_unlistable in
  r.1 = Raise PermissionError
  ∧ fs r.2 !! (["repo"] ++ collection_chain "foo" "bar") = Some Dir
  ∧ fs r.2 !! (["repo"] ++ collection_chain "foo" "bar" ++ ["galaxy.yml"]) = None.
Proof. vm_compute. repeat split. Qed.

(** On a read-only filesystem the first directory is refused and nothing
    is made. *)
Example ensure_tree_read_only :
  let r := ensure_tree ["repo"] (VStr "foo") (VStr "bar") world_read_only in
  r.1 = Raise (OSError EROFS)
  ∧ fs r.2 !! ["repo"; "collections"] = None.
Proof. vm_compute. repeat split. Qed.
